(** * TikTok posting analyzer: record extraction and temporal aggregation

    A shallow embedding of [app.py].  The module has three functions:
    [process_file_contents] (the record-extraction loop followed by the
    pandas pipeline inside [try]/[except]), [create_heatmap] (grouping,
    rounding and pivoting; the drawing calls are presentation only) and
    [main] (the Streamlit page; only what it computes from the table is
    modelled).

    Python strings are sequences of Unicode code points, dictionaries are
    finite maps, 64-bit floats are the kernel's binary64 numbers. *)

From Stdlib Require Import ZArith List Bool Lia.
From Stdlib Require Import Strings.String Strings.Ascii.
From Stdlib Require Import Floats.PrimFloat Floats.SpecFloat Floats.FloatOps.
From Stdlib Require Import Floats.FloatAxioms.
From Stdlib Require Import Sorting.Sorted.
From stdpp Require Import base option list gmap.

Local Open Scope Z_scope.

(** ** Python strings *)

Module PyStr.

(** A [str] is a sequence of code points. *)
Abbreviation str := (list N).

Definition of_string (s : string) : str :=
  List.map N_of_ascii (list_ascii_of_string s).

(** [str.isspace] for one code point: the table of CPython's
    [_PyUnicode_IsWhitespace]. *)
Definition isspace (c : N) : bool :=
  ((9 <=? c) && (c <=? 13) || (28 <=? c) && (c <=? 32)
   || (c =? 133) || (c =? 160) || (c =? 5760)
   || (8192 <=? c) && (c <=? 8202)
   || (c =? 8232) || (c =? 8233) || (c =? 8239) || (c =? 8287)
   || (c =? 12288))%N.

Fixpoint lstrip (s : str) : str :=
  match s with
  | [] => []
  | c :: s' => if isspace c then lstrip s' else s
  end.

Definition rstrip (s : str) : str := rev (lstrip (rev s)).

(** [s.strip()] *)
Definition strip (s : str) : str := rstrip (lstrip s).

(** [s.startswith(p)] *)
Fixpoint startswith (p s : str) : bool :=
  match p, s with
  | [], _ => true
  | _ :: _, [] => false
  | a :: p', b :: s' => (a =? b)%N && startswith p' s'
  end.

(** [s.find(sub)]: index of the first occurrence, [None] for Python's -1 *)
Fixpoint find (sub s : str) : option nat :=
  if startswith sub s then Some O
  else match s with
       | [] => None
       | _ :: s' => S <$> find sub s'
       end.

(** [sub in s] *)
Definition contains (sub s : str) : bool :=
  match find sub s with Some _ => true | None => false end.

(** [s.split(sep, 1)] for a non-empty separator: at most one split, at the
    first occurrence. *)
Definition split1 (sep s : str) : list str :=
  match find sep s with
  | None => [s]
  | Some i => [take i s; drop (i + length sep) s]
  end.

(** [s.split('\n')]: always at least one piece. *)
Fixpoint split_nl (s : str) : list str :=
  match s with
  | [] => [[]]
  | c :: s' =>
      if (c =? 10)%N then [] :: split_nl s'
      else match split_nl s' with
           | [] => [[c]]
           | l :: ls => (c :: l) :: ls
           end
  end.

End PyStr.
Import PyStr.

(** ** Record extraction: the loop of [process_file_contents] *)

(** A RawRecord is a Python [dict] from field name to field value. *)
Abbreviation record := (gmap str str).

Definition SEP : str := Eval cbv in of_string ": ".
Definition MARKER : str := Eval cbv in of_string "Adds yours text:".

(** [key, value = parts]: unpacking raises unless there are two parts. *)
Definition unpack2 (parts : list str) : option (str * str) :=
  match parts with
  | [k; v] => Some (k, v)
  | _ => None
  end.

(** The state of the loop: [records] and [current_record]. *)
Definition loop_state : Type := list record * record.

(** One iteration of [for line in file_contents.split('\n')].  [None]
    stands for an exception escaping the loop body. *)
Definition loop_body (st : loop_state) (raw : str) : option loop_state :=
  let '(records, current_record) := st in
  let line := strip raw in
  match line with
  | [] => Some st
  | _ :: _ =>
      current_record ←
        (if contains SEP line
         then '(key, value) ← unpack2 (split1 SEP line);
              Some (<[key := value]> current_record)
         else Some current_record);
      if startswith MARKER line
      then Some (records ++ [current_record], ∅)
      else Some (records, current_record)
  end.

Fixpoint run_loop (st : loop_state) (lines : list str) : option loop_state :=
  match lines with
  | [] => Some st
  | raw :: rest => st' ← loop_body st raw; run_loop st' rest
  end.

(** The extraction phase: the value of [records] when the loop ends. *)
Definition extract_records (file_contents : str) : option (list record) :=
  fst <$> run_loop ([], ∅) (split_nl file_contents).

(** ** Exceptions and the [try]/[except] block *)

(** The exceptions the pipeline can raise, named after the statement that
    raises.  They are not Python's exception classes: the zone error, for
    one, is a subclass of Python's [KeyError]. *)
Inductive exn : Type :=
| KeyError (missing : list str)       (* [df[['Date', 'Like(s)']]] *)
| DateParseError                      (* [pd.to_datetime] *)
| UnknownTimeZoneError (zone : str)   (* [.dt.tz_convert] *)
| IntCastError                        (* [.astype(int)] *)
| DerivedColumnError.                 (* the [.dt] accessors, [strftime] *)

Inductive result (A : Type) : Type :=
| Ok (a : A)
| Raise (e : exn).
Arguments Ok {A} a.
Arguments Raise {A} e.

#[global] Instance result_ret : MRet result := fun A a => Ok a.
#[global] Instance result_bind : MBind result := fun A B f m =>
  match m with
  | Ok a => f a
  | Raise e => Raise e
  end.

Definition or_raise {A : Type} (e : exn) (o : option A) : result A :=
  match o with
  | Some a => Ok a
  | None => Raise e
  end.

(** ** The library operations the pipeline calls

    [pd.to_datetime], the time-zone database, Python's [int], the [.dt]
    accessors and the [float64] aggregates are not code of this program;
    the pipeline is written against this interface.  Instants are
    nanoseconds since the epoch. *)
Class Library : Type := {
  (** [pd.to_datetime(column, utc=True)]: [None] when it raises; a missing
      value (NaN, [None] here) or a null string gives NaT ([None]). *)
  to_datetime : list (option str) -> option (list (option Z));
  to_datetime_length : forall col ds,
    to_datetime col = Some ds -> length ds = length col;
  (** the zone database: the UTC offset, in nanoseconds, in force at a UTC
      instant; [None] for a name that is not a zone *)
  tz_lookup : str -> option (Z -> Z);
  (** [int(s)] stored into an [int64] cell; [None] when either raises *)
  py_int : str -> option Z;
  (** whether [.dt.day_name()], [.dt.time], [.dt.strftime] and [.dt.hour]
      all return for a converted column, given the zone's offsets; they
      raise for timestamps they cannot format *)
  dt_columns_ok : (Z -> Z) -> list (option Z) -> bool;
  (** [groupby(...).agg({'Likes': 'mean'})] on the like counts of one
      group, in table order *)
  group_mean : list Z -> float;
  (** [Series.round(2)] on one value *)
  series_round2 : float -> float;
  (** [df['Likes'].mean()] *)
  series_mean : list Z -> float;
  (** [round(x, 2)] on a [np.float64] *)
  py_round2 : float -> float
}.

(** ** The table built by [process_file_contents] *)

Definition DATE : str := Eval cbv in of_string "Date".
Definition LIKES : str := Eval cbv in of_string "Like(s)".

(** One row of the returned DataFrame.  A row whose [date] is NaT has NaN
    (or NaT) in every column derived from it. *)
Record PostRow : Type := {
  date : option Z;
  Likes : Z;
  day_of_week : option str;
  time : option (Z * Z * Z * Z);
  time_period : option str;
  hour : option Z;
  hour_12 : option str
}.

Abbreviation DataFrame := (list PostRow).

Definition NS_PER_US : Z := 1000.
Definition NS_PER_SECOND : Z := 1000000000.
Definition NS_PER_HOUR : Z := 3600 * NS_PER_SECOND.
Definition NS_PER_DAY : Z := 24 * NS_PER_HOUR.

Definition DAY_NAMES : list str := Eval cbv in
  List.map of_string
    ["Monday"; "Tuesday"; "Wednesday"; "Thursday"; "Friday"; "Saturday";
     "Sunday"]%string.

(** [.dt.day_name()] on local nanoseconds; 1970-01-01 was a Thursday. *)
Definition day_name (local : Z) : str :=
  nth (Z.to_nat ((local / NS_PER_DAY + 3) mod 7)) DAY_NAMES [].

(** [.dt.hour] *)
Definition hour_of (local : Z) : Z := (local / NS_PER_HOUR) mod 24.

(** [.dt.time]: hour, minute, second, microsecond *)
Definition time_of (local : Z) : Z * Z * Z * Z :=
  (hour_of local,
   (local / (60 * NS_PER_SECOND)) mod 60,
   (local / NS_PER_SECOND) mod 60,
   (local / NS_PER_US) mod 1000000).

Definition two_digits (n : Z) : str :=
  [Z.to_N (48 + n / 10); Z.to_N (48 + n mod 10)].

(** [strftime('%p')] *)
Definition strftime_p (local : Z) : str :=
  if hour_of local <? 12 then of_string "AM" else of_string "PM".

(** [strftime('%I')] *)
Definition strftime_I (local : Z) : str :=
  let h := hour_of local mod 12 in
  two_digits (if h =? 0 then 12 else h).

(** The row for one converted timestamp and one cast like count: the five
    assignments after [astype]. *)
Definition make_row (offset : Z -> Z) (d : option Z) (likes : Z) : PostRow :=
  let local := (fun t => t + offset t) <$> d in
  {| date := d;
     Likes := likes;
     day_of_week := day_name <$> local;
     time := time_of <$> local;
     time_period := strftime_p <$> local;
     hour := hour_of <$> local;
     hour_12 := strftime_I <$> local |}.

(** [name in pd.DataFrame(records).columns]: the columns are the union of
    the records' keys. *)
Definition has_column (records : list record) (name : str) : bool :=
  existsb (fun r => bool_decide (is_Some (r !! name))) records.

(** A column of [pd.DataFrame(records)]: NaN where a record has no such key. *)
Definition column (records : list record) (name : str) : list (option str) :=
  (fun r : record => r !! name) <$> records.

(** [pd.DataFrame(records)[['Date', 'Like(s)']]] *)
Definition project (records : list record)
  : result (list (option str) * list (option str)) :=
  match List.filter (fun name => negb (has_column records name)) [DATE; LIKES] with
  | [] => Ok (column records DATE, column records LIKES)
  | missing => Raise (KeyError missing)
  end.

(** What a call does: it returns a value, having shown some messages with
    [st.error], or an exception propagates to the caller. *)
Inductive outcome : Type :=
| Returns (df : option DataFrame) (st_error : list exn)
| Propagates.

Section Pipeline.
Context `{L : Library}.

(** [df['Likes'].astype(int)]: every cell is cast; a missing value, or a
    string the cast rejects, makes the conversion raise.  Which cell the
    error message names is left to the library. *)
Fixpoint astype_int (col : list (option str)) : result (list Z) :=
  match col with
  | [] => Ok []
  | cell :: rest =>
      n ← or_raise IntCastError (cell ≫= py_int);
      ns ← astype_int rest;
      Ok (n :: ns)
  end.

(** The body of the [try] block, on the extracted records. *)
Definition build_table (records : list record) (timezone : str)
  : result DataFrame :=
  '(date_col, likes_col) ← project records;
  dates ← or_raise DateParseError (to_datetime date_col);
  offset ← or_raise (UnknownTimeZoneError timezone) (tz_lookup timezone);
  likes ← astype_int likes_col;
  if dt_columns_ok offset dates
  then Ok (zip_with (make_row offset) dates likes)
  else Raise DerivedColumnError.

Definition process_file_contents (file_contents timezone : str) : outcome :=
  match extract_records file_contents with
  | None => Propagates
  | Some records =>
      match build_table records timezone with
      | Ok df => Returns (Some df) []
      | Raise e => Returns None [e]
      end
  end.

End Pipeline.

(** ** 64-bit floats *)

Module F64.

(** An integer converted to [float64], rounding to nearest, ties to even. *)
Definition of_Z (z : Z) : float := SF2Prim (binary_normalize prec emax z 0 false).

Definition two52 : float := Eval vm_compute in of_Z (2 ^ 52).
Definition hundred : float := Eval vm_compute in of_Z 100.

(** [rint]: the nearest integer, ties to even.  Below 2^52 in magnitude,
    adding and subtracting 2^52 rounds exactly so; from 2^52 on every
    [float64] is an integer. *)
Definition rint (x : float) : float :=
  let a := PrimFloat.abs x in
  if PrimFloat.eqb x PrimFloat.zero then x
  else if PrimFloat.ltb a two52 then
    let r := PrimFloat.sub (PrimFloat.add a two52) two52 in
    if PrimFloat.ltb x PrimFloat.zero then PrimFloat.opp r else r
  else x.

(** [np.round(x, 2)], which is also [Series.round(2)] and [round(x, 2)] on
    a [np.float64]: scale by 100, [rint], scale back. *)
Definition round2 (x : float) : float :=
  PrimFloat.div (rint (PrimFloat.mul x hundred)) hundred.

(** The sum of an [int64] column accumulated in [float64] from left to
    right.  numpy adds in blocks; every order gives this value when the
    partial sums are exactly representable. *)
Definition sum (l : list Z) : float :=
  fold_left (fun acc z => PrimFloat.add acc (of_Z z)) l PrimFloat.zero.

(** [mean] of a non-empty [int64] column *)
Definition mean (l : list Z) : float :=
  PrimFloat.div (sum l) (of_Z (Z.of_nat (length l))).

(** One step of the compensated (Kahan) summation of the grouped mean: the
    running sum and the compensation, then the next value. *)
Definition kahan_step (st : float * float) (z : Z) : float * float :=
  let '(sumx, compensation) := st in
  let y := PrimFloat.sub (of_Z z) compensation in
  let t := PrimFloat.add sumx y in
  let c := PrimFloat.sub (PrimFloat.sub t sumx) y in
  (t, if PrimFloat.eqb c c then c else PrimFloat.zero).

Definition kahan_sum (l : list Z) : float :=
  fst (fold_left kahan_step l (PrimFloat.zero, PrimFloat.zero)).

(** The grouped mean: the compensated sum divided by the group's size. *)
Definition group_mean (l : list Z) : float :=
  PrimFloat.div (kahan_sum l) (of_Z (Z.of_nat (length l))).

End F64.

(** ** [create_heatmap] *)

(** Python's order on strings: lexicographic on code points. *)
Fixpoint str_compare (a b : str) : comparison :=
  match a, b with
  | [], [] => Eq
  | [], _ :: _ => Lt
  | _ :: _, [] => Gt
  | x :: a', y :: b' =>
      match N.compare x y with
      | Eq => str_compare a' b'
      | c => c
      end
  end.

Definition key_compare (k1 k2 : str * Z) : comparison :=
  match str_compare (fst k1) (fst k2) with
  | Eq => Z.compare (snd k1) (snd k2)
  | c => c
  end.

Section SortUnique.
Context {A : Type} (cmp : A -> A -> comparison).

Fixpoint insert_unique (x : A) (l : list A) : list A :=
  match l with
  | [] => [x]
  | y :: l' =>
      match cmp x y with
      | Lt => x :: l
      | Eq => l
      | Gt => y :: insert_unique x l'
      end
  end.

(** The distinct values of a column in ascending order. *)
Definition sort_unique (l : list A) : list A := foldr insert_unique [] l.

End SortUnique.

(** The group a row belongs to; a row with NaN in a key column is in no
    group ([dropna=True]). *)
Definition group_key (r : PostRow) : option (str * Z) :=
  d ← day_of_week r; h ← hour r; Some (d, h).

Definition in_group (k : str * Z) (r : PostRow) : bool :=
  bool_decide (group_key r = Some k).

(** The like counts of the rows of one group, in table order. *)
Definition group_likes (df : DataFrame) (k : str * Z) : list Z :=
  Likes <$> List.filter (in_group k) df.

(** [df.groupby(['day_of_week', 'hour']).agg({'Likes': 'mean'}).reset_index()]:
    one row per observed key, keys ascending. *)
Definition groupby_mean `{L : Library} (df : DataFrame)
  : list (str * Z * float) :=
  (fun k => (k, group_mean (group_likes df k)))
    <$> sort_unique key_compare (omap group_key df).

(** [df_grouped['Likes'].round(2)] *)
Definition round_likes `{L : Library} (g : list (str * Z * float))
  : list (str * Z * float) :=
  (fun '(k, v) => (k, series_round2 v)) <$> g.

(** A pivoted frame: row labels, column labels and the cells, NaN ([None])
    where the long table has no row for the pair. *)
Record heatmap_data : Type := {
  index : list str;
  columns : list Z;
  values : list (list (option float))
}.

Fixpoint assoc_key (k : str * Z) (g : list (str * Z * float)) : option float :=
  match g with
  | [] => None
  | (k', v) :: g' => if bool_decide (k' = k) then Some v else assoc_key k g'
  end.

(** [g.pivot(index="day_of_week", columns="hour", values="Likes")] *)
Definition pivot (g : list (str * Z * float)) : heatmap_data :=
  let idx := sort_unique str_compare ((fun e => fst (fst e)) <$> g) in
  let cols := sort_unique Z.compare ((fun e => snd (fst e)) <$> g) in
  {| index := idx;
     columns := cols;
     values := (fun d => (fun h => assoc_key (d, h) g) <$> cols) <$> idx |}.

(** The frame [create_heatmap] hands to [sns.heatmap]. *)
Definition create_heatmap `{L : Library} (df : DataFrame) : heatmap_data :=
  pivot (round_likes (groupby_mean df)).

Fixpoint index_of {A : Type} `{EqDecision A} (x : A) (l : list A) : option nat :=
  match l with
  | [] => None
  | y :: l' => if decide (y = x) then Some O else S <$> index_of x l'
  end.

(** The heat cell for a day and an hour: the cell at that row and column
    label, nothing when the label is not there or the cell is NaN. *)
Definition heat_cell (m : heatmap_data) (d : str) (h : Z) : option float :=
  i ← index_of d (index m);
  j ← index_of h (columns m);
  row ← values m !! i;
  mjoin (row !! j).

(** ** [main]: what the page shows for an uploaded file *)

(** [int64] wrap-around, as in [df['Likes'].sum()]. *)
Definition wrap_int64 (z : Z) : Z := (z + 2 ^ 63) mod 2 ^ 64 - 2 ^ 63.

Record report : Type := {
  table : DataFrame;
  heatmap : heatmap_data;
  total_likes : Z;
  average_likes : float
}.

Definition summarize `{L : Library} (df : DataFrame) : report :=
  {| table := df;
     heatmap := create_heatmap df;
     total_likes := wrap_int64 (fold_left Z.add (Likes <$> df) 0);
     average_likes := py_round2 (series_mean (Likes <$> df)) |}.

(** The branch of [main] taken once a file is uploaded: the report shown
    when the table is not [None], and the messages shown with [st.error];
    [None] when an exception propagates. *)
Definition main `{L : Library} (selected_timezone file_contents : str)
  : option (option report * list exn) :=
  match process_file_contents file_contents selected_timezone with
  | Propagates => None
  | Returns df errors => Some (summarize <$> df, errors)
  end.

(** [sorted(names)]: ascending, equal names kept. *)
Fixpoint insert_sorted (x : str) (l : list str) : list str :=
  match l with
  | [] => [x]
  | y :: l' =>
      match str_compare x y with
      | Gt => y :: insert_sorted x l'
      | _ => x :: l
      end
  end.

Definition sorted (names : list str) : list str := foldr insert_sorted [] names.

Definition US_PACIFIC : str := Eval cbv in of_string "US/Pacific".

(** [timezone_list = sorted(pytz.all_timezones)], the options of the
    select box. *)
Definition timezone_list (all_timezones : list str) : list str :=
  sorted all_timezones.

(** [timezone_list.index('US/Pacific')], the option selected by default;
    [None] when [list.index] raises [ValueError]. *)
Definition default_index (all_timezones : list str) : option nat :=
  index_of US_PACIFIC (timezone_list all_timezones).

(** ** A reference library

    A small instance of [Library] to run the pipeline on concrete input.
    It knows timestamps written [YYYY-MM-DDTHH:MM:SSZ], the zones [UTC] and
    [Etc/GMT+8], and integer literals in ASCII; on these it computes what
    pandas, the zone database and Python's [int] compute.  Its [float64]
    aggregates are those of module [F64]. *)

Module Reference.

Definition digit (c : N) : option Z :=
  if ((48 <=? c) && (c <=? 57))%N then Some (Z.of_N c - 48) else None.

(** A non-empty run of ASCII digits, read in base ten. *)
Fixpoint digits_from (acc : Z) (s : str) : option Z :=
  match s with
  | [] => Some acc
  | c :: s' => d ← digit c; digits_from (10 * acc + d) s'
  end.

Definition number (s : str) : option Z :=
  match s with
  | [] => None
  | _ :: _ => digits_from 0 s
  end.

Definition field (start len : nat) (s : str) : option Z :=
  number (take len (drop start s)).

Definition char_is (i : nat) (c : N) (s : str) : bool :=
  bool_decide (s !! i = Some c).

Definition is_leap (y : Z) : bool :=
  (y mod 4 =? 0) && (negb (y mod 100 =? 0) || (y mod 400 =? 0)).

Definition days_in_month (y m : Z) : Z :=
  if m =? 2 then (if is_leap y then 29 else 28)
  else if (m =? 4) || (m =? 6) || (m =? 9) || (m =? 11) then 30
  else 31.

(** Days from 1970-01-01 to a date of the proleptic Gregorian calendar. *)
Definition days_from_civil (y m d : Z) : Z :=
  let y' := if m <=? 2 then y - 1 else y in
  let era := y' / 400 in
  let yoe := y' - era * 400 in
  let doy := (153 * ((m + 9) mod 12) + 2) / 5 + d - 1 in
  let doe := yoe * 365 + yoe / 4 - yoe / 100 + doy in
  era * 146097 + doe - 719468.

Definition in_int64 (z : Z) : bool := (- 2 ^ 63 <=? z) && (z <? 2 ^ 63).

(** The instant of a string [YYYY-MM-DDTHH:MM:SSZ], in nanoseconds. *)
Definition iso_instant (s : str) : option Z :=
  if bool_decide (length s = 20%nat)
     && char_is 4 45 s && char_is 7 45 s && char_is 10 84 s
     && char_is 13 58 s && char_is 16 58 s && char_is 19 90 s
  then
    y ← field 0 4 s; m ← field 5 2 s; d ← field 8 2 s;
    hh ← field 11 2 s; mm ← field 14 2 s; ss ← field 17 2 s;
    let ns := (((days_from_civil y m d * 24 + hh) * 60 + mm) * 60 + ss)
              * NS_PER_SECOND in
    if (1 <=? m) && (m <=? 12) && (1 <=? d) && (d <=? days_in_month y m)
       && (hh <? 24) && (mm <? 60) && (ss <? 60)
    then Some ns else None
  else None.

(** A column of such strings; a missing value becomes NaT, any other
    string raises. *)
Fixpoint to_datetime (col : list (option str)) : option (list (option Z)) :=
  match col with
  | [] => Some []
  | None :: rest => ds ← to_datetime rest; Some (None :: ds)
  | Some s :: rest =>
      t ← iso_instant s; ds ← to_datetime rest; Some (Some t :: ds)
  end.

Definition UTC : str := Eval cbv in of_string "UTC".
Definition ETC_GMT_PLUS_8 : str := Eval cbv in of_string "Etc/GMT+8".

(** [Etc/GMT+8] is eight hours behind UTC all year (POSIX sign). *)
Definition tz_lookup (zone : str) : option (Z -> Z) :=
  if bool_decide (zone = UTC) then Some (fun _ => 0)
  else if bool_decide (zone = ETC_GMT_PLUS_8) then Some (fun _ => - 8 * NS_PER_HOUR)
  else None.

Definition c_isspace (c : N) : bool := ((9 <=? c) && (c <=? 13) || (c =? 32))%N.

Fixpoint skip_space (s : str) : str :=
  match s with
  | [] => []
  | c :: s' => if c_isspace c then skip_space s' else s
  end.

(** Digits with single underscores between them. *)
Fixpoint digits_us (acc : Z) (after_digit : bool) (s : str) : option Z :=
  match s with
  | [] => if after_digit then Some acc else None
  | c :: s' =>
      if (c =? 95)%N then
        (if after_digit then digits_us acc false s' else None)
      else d ← digit c; digits_us (10 * acc + d) true s'
  end.

(** [int(s)] for an ASCII literal: blanks around, an optional sign, decimal
    digits; then the value must fit an [int64] cell. *)
Definition py_int (s : str) : option Z :=
  let body := rev (skip_space (rev (skip_space s))) in
  v ← match body with
      | 45%N :: ds => Z.opp <$> digits_us 0 false ds
      | 43%N :: ds => digits_us 0 false ds
      | ds => digits_us 0 false ds
      end;
  if in_int64 v then Some v else None.

(** The derived columns can be computed for local times from year 1 to
    year 9999, the range of Python's [datetime]; outside it [strftime]
    raises. *)
Definition dt_columns_ok (offset : Z -> Z) (dates : list (option Z)) : bool :=
  forallb
    (fun d : option Z =>
       match d with
       | None => true
       | Some t =>
           (days_from_civil 1 1 1 * NS_PER_DAY <=? t + offset t)
           && (t + offset t <? days_from_civil 10000 1 1 * NS_PER_DAY)
       end)
    dates.

#[global] Instance library : Library.
Proof.
  refine (Build_Library to_datetime _ tz_lookup py_int dt_columns_ok
            F64.group_mean F64.round2 F64.mean F64.round2).
  intros col; induction col as [|[s|] col IH]; intros ds H; simpl in H.
  - by inversion H.
  - destruct (iso_instant s); simpl in H; [|done].
    destruct (to_datetime col) as [ds'|]; simpl in H; [|done].
    inversion H; subst; simpl. f_equal. by apply IH.
  - destruct (to_datetime col) as [ds'|]; simpl in H; [|done].
    inversion H; subst; simpl. f_equal. by apply IH.
Defined.

End Reference.

(** * The vocabulary of the statements *)

(** The two tests of the loop body, on a raw line. *)
Definition is_terminator (raw : str) : bool := startswith MARKER (strip raw).

(** The pair a line stores into the in-progress record, if any. *)
Definition line_pair (raw : str) : option (str * str) :=
  let line := strip raw in
  if contains SEP line then unpack2 (split1 SEP line) else None.

(** The in-progress record after the key/value rule has seen a line. *)
Definition store (raw : str) (current_record : record) : record :=
  match line_pair raw with
  | Some (key, value) => <[key := value]> current_record
  | None => current_record
  end.

Arguments loop_body : simpl never.
Arguments is_terminator : simpl never.
Arguments line_pair : simpl never.
Arguments store : simpl never.

(** ** Records and blocks of lines *)

(** [r] holds exactly the pairs of the lines [ls], the last value winning:
    a key maps to a value exactly when some line stores that pair and no
    later line stores a pair for the same key. *)
Definition holds_pairs (ls : list str) (r : record) : Prop :=
  forall key value,
    r !! key = Some value <->
    exists ls1 l ls2,
      ls = ls1 ++ l :: ls2
      /\ line_pair l = Some (key, value)
      /\ forall l' value', l' ∈ ls2 -> line_pair l' <> Some (key, value').

(** A block: lines that are not terminators, then its terminator line. *)
Definition block_shape (b : list str * str) : Prop :=
  Forall (fun raw => is_terminator raw = false) b.1 /\ is_terminator b.2 = true.

Definition block_lines (b : list str * str) : list str := b.1 ++ [b.2].

(** The lines of a text cut into blocks and a trailing part with no
    terminator. *)
Definition cut_into (lines : list str) (blocks : list (list str * str))
    (trailing : list str) : Prop :=
  lines = concat (block_lines <$> blocks) ++ trailing
  /\ Forall block_shape blocks
  /\ Forall (fun raw => is_terminator raw = false) trailing.

(** C3 as stated: each record holds exactly the pairs of the lines strictly
    before its terminator line. *)
Definition records_of_strict_blocks (file_contents : str) : Prop :=
  exists blocks trailing records,
    cut_into (split_nl file_contents) blocks trailing
    /\ extract_records file_contents = Some records
    /\ length records = length (List.filter is_terminator (split_nl file_contents))
    /\ Forall2 (fun r b => holds_pairs b.1 r) records blocks.

(** C1 as stated, at one input: a record lacking [Date] or [Like(s)] makes
    the aggregation raise. *)
Definition missing_key_fatal_at `{L : Library}
    (records : list record) (timezone : str) : Prop :=
  (exists r : record, r ∈ records /\ (r !! DATE = None \/ r !! LIKES = None)) ->
  exists e, build_table records timezone = Raise e.

(** The string form of a non-negative integer: one or more ASCII digits. *)
Definition nonneg_literal (v : str) : Prop :=
  v <> [] /\ Forall (fun c => 48 <= c <= 57)%N v.

(** C6 as stated, at one input: a like count that is not such a string
    makes the aggregation raise, and a table that is built has no negative
    [Likes]. *)
Definition bad_like_count_fatal_at `{L : Library}
    (records : list record) (timezone : str) : Prop :=
  ((exists (r : record) v,
      r ∈ records /\ r !! LIKES = Some v /\ ~ nonneg_literal v) ->
   exists e, build_table records timezone = Raise e)
  /\ (forall df, build_table records timezone = Ok df ->
        Forall (fun row => 0 <= Likes row) df).

(** C7 as stated, at one input: an unrecognised zone is the error reported,
    whatever the records hold. *)
Definition unknown_zone_reported_at `{L : Library}
    (records : list record) (timezone : str) : Prop :=
  tz_lookup timezone = None ->
  build_table records timezone = Raise (UnknownTimeZoneError timezone).











(** The example text: two posts on 2024-01-15, at 10:00 and 10:30 UTC. *)
Definition scenario : str := of_string "Date: 2024-01-15T10:00:00Z
Like(s): 10
Adds yours text: x
Date: 2024-01-15T10:30:00Z
Like(s): 20
Adds yours text: x
".

(** ['\n'.join(lines)], the inverse of splitting at newlines. *)
Fixpoint join_nl (lines : list str) : str :=
  match lines with
  | [] => []
  | [l] => l
  | l :: rest => l ++ 10%N :: join_nl rest
  end.

(** A string whose characters are all whitespace. *)
Definition all_space (s : str) : Prop := Forall (fun c => isspace c = true) s.

(** No whitespace at the left end, at the right end. *)
Definition no_space_left (s : str) : Prop :=
  forall c, head s = Some c -> isspace c = false.

Definition no_space_right (s : str) : Prop :=
  forall c, last s = Some c -> isspace c = false.

(** The separator first occurs in [line] at position [i]. *)
Definition first_sep_at (i : nat) (line : str) : Prop :=
  startswith SEP (drop i line) = true
  /\ forall j, (j < i)%nat -> startswith SEP (drop j line) = false.

(** One post written the way the export writes it: its date line, its
    like-count line and a bare terminator line. *)
Definition format_post (post : str * str) : str :=
  (of_string "Date: " ++ post.1)
    ++ 10%N :: (of_string "Like(s): " ++ post.2) ++ 10%N :: MARKER.

(** Posts written one after the other, a newline between them. *)
Definition format_posts (posts : list (str * str)) : str :=
  join_nl (format_post <$> posts).

(** The record the loop builds for such a post. *)
Definition post_record (post : str * str) : record :=
  <[LIKES := post.2]> (<[DATE := post.1]> ∅).

(** A field value that survives the round trip: not empty, on one line,
    with no whitespace at its right end. *)
Definition plain_value (v : str) : Prop :=
  v <> [] /\ (10%N ∉ v) /\ no_space_right v.

(** * Properties of the extraction loop *)

Section StringFacts.

Lemma startswith_app p s : startswith p s = true <-> exists t, s = p ++ t.
Proof.
  revert s; induction p as [|a p IH]; intros s; simpl.
  - split; [intros _; by exists s | done].
  - destruct s as [|b s]; simpl.
    + split; [done | intros [t Ht]; discriminate].
    + rewrite andb_true_iff, N.eqb_eq, IH. split.
      * intros [-> [t ->]]. by exists t.
      * intros [t Ht]. injection Ht as -> ->. eauto.
Qed.

Lemma startswith_drop p s :
  startswith p s = true -> s = p ++ drop (length p) s.
Proof.
  intros [t ->]%startswith_app. by rewrite drop_app_length.
Qed.

Lemma find_Some sub s i :
  find sub s = Some i ->
  s = take i s ++ sub ++ drop (i + length sub) s
  /\ forall j, (j < i)%nat -> startswith sub (drop j s) = false.
Proof.
  revert i; induction s as [|c s IH]; intros i.
  - simpl. destruct (startswith sub []) eqn:E; [|done].
    intros [= <-]. split; [|lia]. by apply startswith_drop in E.
  - cbn [find]. destruct (startswith sub (c :: s)) eqn:E.
    + intros [= <-]. split; [|lia]. by apply startswith_drop in E.
    + destruct (find sub s) as [i'|] eqn:F; simpl; [|done].
      intros [= <-]. destruct (IH i' eq_refl) as [Hs Hfirst].
      split.
      * simpl. f_equal. exact Hs.
      * intros [|j] Hj; simpl; [exact E | apply Hfirst; lia].
Qed.

Lemma split_nl_cons s : exists l ls, split_nl s = l :: ls.
Proof.
  induction s as [|c s [l [ls IH]]]; simpl; [by eauto|].
  destruct (c =? 10)%N; [by eauto|]. rewrite IH. by eauto.
Qed.

(** Splitting at newlines distributes over a newline in the text. *)
Lemma split_nl_app t1 t2 :
  split_nl (t1 ++ 10%N :: t2) = split_nl t1 ++ split_nl t2.
Proof.
  induction t1 as [|c t1 IH]; simpl; [done|].
  destruct (c =? 10)%N; [by rewrite IH|].
  rewrite IH. by destruct (split_nl_cons t1) as [l [ls ->]].
Qed.

End StringFacts.

Section LoopFacts.

(** The guard [': ' in line] makes the unpacking succeed. *)
Lemma unpack2_split1 line :
  contains SEP line = true ->
  exists key value, unpack2 (split1 SEP line) = Some (key, value)
                    /\ line = key ++ SEP ++ value
                    /\ forall j, (j < length key)%nat ->
                         startswith SEP (drop j line) = false.
Proof.
  unfold contains, split1. destruct (find SEP line) as [i|] eqn:F; [|done].
  intros _. destruct (find_Some _ _ _ F) as [Hline Hfirst].
  exists (take i line), (drop (i + length SEP) line).
  split; [done|]. split; [exact Hline|].
  intros j Hj. apply Hfirst. rewrite length_take in Hj. lia.
Qed.

(** The loop body never raises; its effect in closed form. *)
Lemma loop_body_eq records current_record raw :
  loop_body (records, current_record) raw =
  Some (if is_terminator raw
        then (records ++ [store raw current_record], ∅)
        else (records, store raw current_record)).
Proof.
  unfold loop_body, store, line_pair, is_terminator.
  destruct (strip raw) as [|c line] eqn:E; [done|].
  set (l := c :: line) in *.
  destruct (contains SEP l) eqn:C.
  - destruct (unpack2_split1 _ C) as (key & value & -> & _).
    by destruct (startswith MARKER l).
  - by destruct (startswith MARKER l).
Qed.

Lemma run_loop_total lines : forall st, exists st', run_loop st lines = Some st'.
Proof.
  induction lines as [|raw lines IH]; intros [records current]; simpl.
  - by eauto.
  - rewrite loop_body_eq. simpl. apply IH.
Qed.

Lemma run_loop_app l1 l2 st :
  run_loop st (l1 ++ l2) = st' ← run_loop st l1; run_loop st' l2.
Proof.
  revert st; induction l1 as [|raw l1 IH]; intros st; simpl; [done|].
  destruct (loop_body st raw) as [st'|]; simpl; [apply IH | done].
Qed.

(** Lines that are not terminators leave [records] alone. *)
Lemma run_loop_no_terminator lines :
  Forall (fun raw => is_terminator raw = false) lines ->
  forall records current,
    exists current', run_loop (records, current) lines = Some (records, current').
Proof.
  induction 1 as [|raw lines Hraw _ IH]; intros records current; simpl.
  - by eauto.
  - rewrite loop_body_eq, Hraw. simpl. apply IH.
Qed.

(** One record per terminator line. *)
Lemma run_loop_length lines : forall records current records' current',
  run_loop (records, current) lines = Some (records', current') ->
  length records' = (length records + length (List.filter is_terminator lines))%nat.
Proof.
  induction lines as [|raw lines IH]; intros records current records' current'; simpl.
  - intros [= <- <-]. lia.
  - rewrite loop_body_eq. simpl. destruct (is_terminator raw); simpl; intros H.
    + apply IH in H. rewrite length_app in H. simpl in *. lia.
    + by apply IH in H.
Qed.

End LoopFacts.

Lemma extract_records_total (file_contents : str) :
  exists records, extract_records file_contents = Some records.
Proof.
  unfold extract_records.
  destruct (run_loop_total (split_nl file_contents) ([], ∅)) as [st ->].
  by eauto.
Qed.

(** C9. The extraction phase is total: on every input string the loop ends
    without an exception and returns a list of records; a line that is blank
    after stripping, or that has neither the separator nor the marker, leaves
    both the list and the in-progress record as they were. *)
Theorem extraction_total :
  (forall file_contents : str,
     exists records, extract_records file_contents = Some records)
  /\ (forall (st : loop_state) (raw : str),
        strip raw = []
        \/ (contains SEP (strip raw) = false
            /\ startswith MARKER (strip raw) = false) ->
        loop_body st raw = Some st).
Proof.
  split.
  - apply extract_records_total.
  - intros [records current] raw H. rewrite loop_body_eq.
    unfold is_terminator, store, line_pair.
    destruct H as [-> | [-> ->]]; reflexivity.
Qed.

Lemma extraction_total_witness :
  loop_body ([], ∅) (of_string "   ") = Some ([], ∅)
  /\ loop_body ([∅], ∅) (of_string "no separator here:") = Some ([∅], ∅).
Proof.
  split; apply (proj2 extraction_total); [left | right]; vm_compute; auto.
Defined.

(** C4. On a terminator line that also contains the separator, the pair is
    stored first and the record holding it is then appended: the line is
    [key ++ ": " ++ value] with the separator's first occurrence after
    [key], and the step appends [current_record] updated at [key] and
    starts an empty record. *)
Theorem terminator_stores_then_appends
    (records : list record) (current_record : record) (raw : str) :
  startswith MARKER (strip raw) = true ->
  contains SEP (strip raw) = true ->
  exists key value,
    strip raw = key ++ SEP ++ value
    /\ (forall j, (j < length key)%nat ->
          startswith SEP (drop j (strip raw)) = false)
    /\ split1 SEP (strip raw) = [key; value]
    /\ loop_body (records, current_record) raw =
       Some (records ++ [<[key := value]> current_record], ∅).
Proof.
  intros Hterm Hsep.
  destruct (unpack2_split1 _ Hsep) as (key & value & Hsplit & Hline & Hfirst).
  exists key, value. repeat split; try done.
  - unfold split1 in *. destruct (find SEP (strip raw)); [|done].
    simpl in Hsplit. by injection Hsplit as <- <-.
  - rewrite loop_body_eq. unfold is_terminator, store, line_pair.
    by rewrite Hterm, Hsep, Hsplit.
Qed.

Lemma terminator_stores_then_appends_witness :
  exists key value,
    strip (of_string "Adds yours text: x ") = key ++ SEP ++ value
    /\ (forall j, (j < length key)%nat ->
          startswith SEP (drop j (strip (of_string "Adds yours text: x "))) = false)
    /\ split1 SEP (strip (of_string "Adds yours text: x ")) = [key; value]
    /\ loop_body ([], {[ DATE := of_string "d" ]}) (of_string "Adds yours text: x ") =
       Some ([] ++ [<[key := value]> {[ DATE := of_string "d" ]}], ∅).
Proof.
  apply (terminator_stores_then_appends [] {[ DATE := of_string "d" ]}
           (of_string "Adds yours text: x ")); vm_compute; reflexivity.
Defined.

(** C5. A trailing block that never meets a terminator line is discarded:
    text followed by a newline and lines none of which is a terminator
    yields the records of the text before them, and text with no terminator
    line at all yields no record. *)
Theorem trailing_block_discarded (t1 t2 : str) :
  Forall (fun raw => is_terminator raw = false) (split_nl t2) ->
  extract_records (t1 ++ 10%N :: t2) = extract_records t1
  /\ extract_records t2 = Some [].
Proof.
  intros Htrail. unfold extract_records. split.
  - rewrite split_nl_app, run_loop_app.
    destruct (run_loop_total (split_nl t1) ([], ∅)) as [[records current] ->].
    simpl. by destruct (run_loop_no_terminator _ Htrail records current) as [c ->].
  - by destruct (run_loop_no_terminator _ Htrail [] ∅) as [c ->].
Qed.

Lemma trailing_block_discarded_witness :
  extract_records (of_string "Date: a
Adds yours text: x" ++ 10%N :: of_string "Date: b
Like(s): 3")
  = extract_records (of_string "Date: a
Adds yours text: x")
  /\ extract_records (of_string "Date: b
Like(s): 3") = Some [].
Proof.
  apply trailing_block_discarded. vm_compute. repeat constructor.
Defined.

Section BlockFacts.

Lemma snoc_eq_middle {A : Type} (ls : list A) l ls1 l0 ls2 :
  ls ++ [l] = ls1 ++ l0 :: ls2 ->
  (ls2 = [] /\ ls = ls1 /\ l = l0)
  \/ exists ls2', ls2 = ls2' ++ [l] /\ ls = ls1 ++ l0 :: ls2'.
Proof.
  destruct ls2 as [|x ls2 _] using rev_ind; intros H.
  - left. change (ls1 ++ [l0]) with (ls1 ++ [l0]) in H.
    apply app_inj_tail in H as [-> ->]. done.
  - right. exists ls2.
    change (ls1 ++ l0 :: ls2 ++ [x]) with (ls1 ++ (l0 :: ls2) ++ [x]) in H.
    rewrite app_assoc in H. apply app_inj_tail in H as [-> ->]. done.
Qed.

Lemma holds_pairs_nil : holds_pairs [] ∅.
Proof.
  intros key value. rewrite lookup_empty. split; [done|].
  intros (ls1 & l & ls2 & H & _). by destruct ls1.
Qed.

(** Storing the pair of one more line keeps the record in step with the
    lines read. *)
Lemma holds_pairs_snoc ls r raw :
  holds_pairs ls r -> holds_pairs (ls ++ [raw]) (store raw r).
Proof.
  intros Hr key value. unfold store.
  destruct (line_pair raw) as [[k v]|] eqn:P.
  - destruct (decide (k = key)) as [->|Hne].
    + rewrite lookup_insert_eq. split.
      * intros [= <-]. exists ls, raw, []. repeat split; [done|].
        intros l' v' Hin. by apply elem_of_nil in Hin.
      * intros (ls1 & l & ls2 & Heq & Hl & Hlast).
        apply snoc_eq_middle in Heq as [(-> & -> & ->) | (ls2' & -> & ->)].
        -- congruence.
        -- exfalso. apply (Hlast raw v); [|done].
           apply elem_of_app. right. by apply list_elem_of_singleton.
    + rewrite lookup_insert_ne by done. rewrite (Hr key value). split.
      * intros (ls1 & l & ls2 & -> & Hl & Hlast).
        exists ls1, l, (ls2 ++ [raw]). rewrite <- app_assoc. repeat split; [done|].
        intros l' v' [Hin | ->%list_elem_of_singleton]%elem_of_app.
        -- by apply Hlast.
        -- congruence.
      * intros (ls1 & l & ls2 & Heq & Hl & Hlast).
        apply snoc_eq_middle in Heq as [(-> & -> & ->) | (ls2' & -> & ->)].
        -- congruence.
        -- exists ls1, l, ls2'. repeat split; [done|].
           intros l' v' Hin. apply Hlast. apply elem_of_app. by left.
  - rewrite (Hr key value). split.
    + intros (ls1 & l & ls2 & -> & Hl & Hlast).
      exists ls1, l, (ls2 ++ [raw]). rewrite <- app_assoc. repeat split; [done|].
      intros l' v' [Hin | ->%list_elem_of_singleton]%elem_of_app.
      * by apply Hlast.
      * congruence.
    + intros (ls1 & l & ls2 & Heq & Hl & Hlast).
      apply snoc_eq_middle in Heq as [(-> & -> & ->) | (ls2' & -> & ->)].
      * congruence.
      * exists ls1, l, ls2'. repeat split; [done|].
        intros l' v' Hin. apply Hlast. apply elem_of_app. by left.
Qed.

(** The loop, started in the middle of a block whose lines so far
    are [pend]. *)
Lemma run_loop_blocks lines : forall records current pend,
  Forall (fun raw => is_terminator raw = false) pend ->
  holds_pairs pend current ->
  exists blocks trailing records' current',
    cut_into (pend ++ lines) blocks trailing
    /\ run_loop (records, current) lines = Some (records ++ records', current')
    /\ Forall2 (fun r b => holds_pairs (block_lines b) r) records' blocks.
Proof.
  induction lines as [|raw lines IH]; intros records current pend Hpend Hcur.
  - exists [], pend, [], current. rewrite !app_nil_r. repeat split; auto.
  - cbn [run_loop]. rewrite loop_body_eq.
    pose proof (holds_pairs_snoc _ _ raw Hcur) as Hcur'.
    destruct (is_terminator raw) eqn:T; cbn [mbind option_bind].
    + destruct (IH (records ++ [store raw current]) ∅ [] (Forall_nil_2 _)
                  holds_pairs_nil)
        as (blocks & trailing & records' & current' & (Hcut & Hshape & Htrail) & Hrun & Hrec).
      exists ((pend, raw) :: blocks), trailing, (store raw current :: records'), current'.
      repeat split.
      * cbn [app] in Hcut. rewrite Hcut at 1. rewrite fmap_cons. cbn [concat].
        change (block_lines (pend, raw)) with (pend ++ [raw]).
        by rewrite <- !app_assoc.
      * constructor; [by split | done].
      * done.
      * rewrite Hrun, <- app_assoc. done.
      * constructor; done.
    + destruct (IH records (store raw current) (pend ++ [raw])) as
        (blocks & trailing & records' & current' & (Hcut & Hshape & Htrail) & Hrun & Hrec).
      * apply Forall_app. split; [done | by constructor].
      * done.
      * exists blocks, trailing, records', current'.
        rewrite <- app_assoc in Hcut. repeat split; done.
Qed.

End BlockFacts.

(** C3, counterexample: the text [Adds yours text: x] is one block with no
    line before its terminator, yet its record is not empty: it holds the
    pair read from the terminator line itself. *)
Lemma records_of_strict_blocks_fails :
  ~ records_of_strict_blocks (of_string "Adds yours text: x").
Proof.
  intros (blocks & trailing & records & (Hcut & Hshape & Htrail) & Hext & _ & Hrec).
  assert (extract_records (of_string "Adds yours text: x")
          = Some [ <[of_string "Adds yours text" := of_string "x"]> ∅ ]) as Hrun
    by (vm_compute; reflexivity).
  rewrite Hrun in Hext. injection Hext as <-. clear Hrun.
  assert (length (split_nl (of_string "Adds yours text: x")) = 1%nat) as Hlen
    by (vm_compute; reflexivity).
  rewrite Hcut in Hlen. clear Hcut.
  inversion Hrec as [|r [body term] rs bs Hr Hrs]; subst. clear Hrec.
  cbn [fst] in Hr.
  destruct (proj1 (Hr _ _) (lookup_insert_eq _ _ _))
    as (ls1 & l & ls2 & -> & _).
  rewrite fmap_cons in Hlen. cbn [concat] in Hlen. unfold block_lines in Hlen.
  cbn [fst snd] in Hlen. rewrite !length_app in Hlen. cbn [length] in Hlen. lia.
Qed.

(** C3, amended. The loop returns one record per terminator line, in the
    order of the terminator lines; the lines of the text are the blocks, each
    ended by its terminator line, followed by lines with no terminator, and
    each record holds exactly the pairs of the lines of its block (the
    terminator line included), the last value winning for a repeated key. *)
Theorem records_of_blocks (file_contents : str) :
  exists blocks trailing records,
    cut_into (split_nl file_contents) blocks trailing
    /\ extract_records file_contents = Some records
    /\ length records = length (List.filter is_terminator (split_nl file_contents))
    /\ Forall2 (fun r b => holds_pairs (block_lines b) r) records blocks.
Proof.
  destruct (run_loop_blocks (split_nl file_contents) [] ∅ [] (Forall_nil_2 _)
              holds_pairs_nil)
    as (blocks & trailing & records & current & Hcut & Hrun & Hrec).
  exists blocks, trailing, records. simpl in Hrun, Hcut.
  unfold extract_records. rewrite Hrun.
  split; [exact Hcut|]. split; [done|]. split; [|done].
  by apply run_loop_length in Hrun.
Qed.

(** * Properties of the pipeline in the [try] block *)

Section PipelineFacts.
Context `{L : Library}.

Lemma has_column_true records name :
  has_column records name = true <-> exists r, r ∈ records /\ is_Some (r !! name).
Proof.
  unfold has_column. rewrite existsb_exists. split.
  - intros (r & Hin & Hr). exists r. split; [by apply list_elem_of_In|].
    by apply bool_decide_eq_true in Hr.
  - intros (r & Hin & Hr). exists r. split; [by apply list_elem_of_In|].
    by apply bool_decide_eq_true.
Qed.

Lemma project_ok records :
  has_column records DATE = true -> has_column records LIKES = true ->
  project records = Ok (column records DATE, column records LIKES).
Proof. unfold project. simpl. by intros -> ->. Qed.

Lemma project_missing records :
  has_column records DATE = false \/ has_column records LIKES = false ->
  exists missing, project records = Raise (KeyError missing).
Proof.
  unfold project. simpl.
  destruct (has_column records DATE), (has_column records LIKES);
    simpl; intros [H|H]; try discriminate; eauto.
Qed.

Lemma astype_int_ok col ns :
  astype_int col = Ok ns <-> Forall2 (fun cell n => cell ≫= py_int = Some n) col ns.
Proof.
  revert ns; induction col as [|cell col IH]; intros ns; simpl.
  - split; [intros [= <-]; constructor | by inversion 1].
  - destruct (cell ≫= py_int) as [n|] eqn:E; simpl.
    + destruct (astype_int col) as [ns'|e] eqn:A; simpl.
      * split.
        -- intros [= <-]. constructor; [done | by apply IH].
        -- inversion 1 as [|? n' ? ns'' Hn Hns]; subst.
           apply IH in Hns. congruence.
      * split; [done|]. inversion 1 as [|? n' ? ns'' Hn Hns]; subst.
        by apply IH in Hns.
    + split; [done|]. inversion 1; congruence.
Qed.

Lemma astype_int_raise col :
  (exists cell, cell ∈ col /\ cell ≫= py_int = None) ->
  exists e, astype_int col = Raise e.
Proof.
  intros (cell & Hin & Hcell).
  destruct (astype_int col) as [ns|e] eqn:A; [|by eauto].
  apply astype_int_ok in A.
  destruct (proj1 (list_elem_of_lookup _ _) Hin) as [i Hi].
  destruct (Forall2_lookup_l _ _ _ _ _ A Hi) as (n & _ & Hn). congruence.
Qed.

Lemma build_table_columns records timezone :
  has_column records DATE = true -> has_column records LIKES = true ->
  build_table records timezone =
  dates ← or_raise DateParseError (to_datetime (column records DATE));
  offset ← or_raise (UnknownTimeZoneError timezone) (tz_lookup timezone);
  likes ← astype_int (column records LIKES);
  if dt_columns_ok offset dates
  then Ok (zip_with (make_row offset) dates likes)
  else Raise DerivedColumnError.
Proof. intros HD HL. unfold build_table. by rewrite project_ok. Qed.

Lemma build_table_missing records timezone :
  has_column records DATE = false \/ has_column records LIKES = false ->
  exists missing, build_table records timezone = Raise (KeyError missing).
Proof.
  intros [missing H]%project_missing. exists missing.
  unfold build_table. by rewrite H.
Qed.

(** When the table is built, and what it is then. *)
Lemma build_table_ok records timezone df :
  build_table records timezone = Ok df <->
  exists dates offset likes,
    has_column records DATE = true /\ has_column records LIKES = true
    /\ to_datetime (column records DATE) = Some dates
    /\ tz_lookup timezone = Some offset
    /\ astype_int (column records LIKES) = Ok likes
    /\ dt_columns_ok offset dates = true
    /\ df = zip_with (make_row offset) dates likes.
Proof.
  split.
  - destruct (has_column records DATE) eqn:HD;
      [|destruct (build_table_missing records timezone) as [m ->]; [by left | done]].
    destruct (has_column records LIKES) eqn:HL;
      [|destruct (build_table_missing records timezone) as [m ->]; [by right | done]].
    rewrite build_table_columns by done.
    destruct (to_datetime _) as [dates|]; [|done].
    destruct (tz_lookup timezone) as [offset|]; [|done].
    destruct (astype_int _) as [likes|] eqn:A; [|done].
    cbn [or_raise mbind result_bind].
    destruct (dt_columns_ok offset dates) eqn:D; [|done].
    intros [= <-]. by exists dates, offset, likes.
  - intros (dates & offset & likes & HD & HL & T & Z & A & D & ->).
    rewrite build_table_columns by done. rewrite T, Z, A.
    cbn [or_raise mbind result_bind]. by rewrite D.
Qed.

(** A built table has one row per record. *)
Lemma build_table_length records timezone df :
  build_table records timezone = Ok df -> length df = length records.
Proof.
  intros (dates & offset & likes & _ & _ & HD & _ & HA & _ & ->)%build_table_ok.
  apply to_datetime_length in HD. apply astype_int_ok, Forall2_length in HA.
  unfold column in *. rewrite length_fmap in HD, HA.
  rewrite length_zip_with. lia.
Qed.

Lemma build_table_Likes records timezone df :
  build_table records timezone = Ok df ->
  Forall2 (fun row (r : record) => (r !! LIKES) ≫= py_int = Some (Likes row))
    df records.
Proof.
  intros (dates & offset & likes & _ & _ & HD & _ & HA & _ & ->)%build_table_ok.
  apply to_datetime_length in HD. apply astype_int_ok in HA.
  unfold column in *. rewrite length_fmap in HD.
  revert dates likes HD HA.
  induction records as [|r records IH]; intros dates likes HD HA.
  - destruct dates; [|done]. constructor.
  - destruct dates as [|d dates]; [done|].
    rewrite fmap_cons in HA.
    inversion HA as [|? n ? likes' Hn Hlikes]; subst. simpl.
    constructor; [done|]. apply IH; [simpl in HD; lia | done].
Qed.

End PipelineFacts.

(** ** A record without a key *)

(** C1, counterexample: of two records the second has no [Date]; the
    [Date] column exists because the first record has the key, the missing
    value becomes NaT, and a table of two rows is returned. *)
Lemma missing_date_not_fatal :
  ~ missing_key_fatal_at (L := Reference.library)
      [ {[ DATE := of_string "2024-01-15T10:00:00Z"; LIKES := of_string "10" ]};
        {[ LIKES := of_string "20" ]} ]
      Reference.UTC.
Proof.
  intros H. destruct H as [e He].
  - eexists. split; [apply list_elem_of_In; right; left; reflexivity|].
    left. vm_compute. reflexivity.
  - vm_compute in He. discriminate He.
Qed.

(** C1, amended. When some record has no [Like(s)] key, or no record has a
    [Date] key, the aggregation raises: the call returns [None] after one
    error message, and the page shows no table, no matrix and no summary. *)
Theorem missing_likes_or_no_date_is_fatal `{L : Library}
    (records : list record) (timezone : str) :
  (exists r : record, r ∈ records /\ r !! LIKES = None)
  \/ (forall r : record, r ∈ records -> r !! DATE = None) ->
  exists e,
    build_table records timezone = Raise e
    /\ forall file_contents,
         extract_records file_contents = Some records ->
         process_file_contents file_contents timezone = Returns None [e]
         /\ main timezone file_contents = Some (None, [e]).
Proof.
  intros H.
  assert (exists e, build_table records timezone = Raise e) as [e He].
  { destruct H as [(r & Hin & Hr) | Hnone].
    - destruct (build_table records timezone) as [df|e] eqn:B; [|by eauto].
      apply build_table_Likes in B.
      destruct (proj1 (list_elem_of_lookup _ _) Hin) as [i Hi].
      destruct (Forall2_lookup_r _ _ _ _ _ B Hi) as (row & _ & Hrow).
      rewrite Hr in Hrow. discriminate Hrow.
    - destruct (build_table_missing records timezone) as [m Hm]; [|by eauto].
      left. destruct (has_column records DATE) eqn:HD; [|done].
      apply has_column_true in HD as (r & Hin & [v Hv]).
      rewrite (Hnone r Hin) in Hv. discriminate Hv. }
  exists e. split; [done|]. intros file_contents Hext.
  unfold main, process_file_contents. by rewrite Hext, He.
Qed.

Lemma missing_likes_or_no_date_is_fatal_witness :
  exists e,
    build_table (L := Reference.library)
      [ {[ DATE := of_string "2024-01-15T10:00:00Z" ]} ] Reference.UTC = Raise e
    /\ forall file_contents,
         extract_records file_contents
           = Some [ {[ DATE := of_string "2024-01-15T10:00:00Z" ]} ] ->
         process_file_contents file_contents Reference.UTC = Returns None [e]
         /\ main Reference.UTC file_contents = Some (None, [e]).
Proof.
  apply (missing_likes_or_no_date_is_fatal (L := Reference.library)).
  left. eexists. split; [apply list_elem_of_In; left; reflexivity|].
  vm_compute. reflexivity.
Defined.

(** ** The integer cast of [Like(s)] *)

(** C6, counterexample: the like count [-5] is cast to the integer -5 and
    the table is returned with a negative [Likes]. *)
Lemma negative_like_count_not_fatal :
  ~ bad_like_count_fatal_at (L := Reference.library)
      [ {[ DATE := of_string "2024-01-15T10:00:00Z"; LIKES := of_string "-5" ]} ]
      Reference.UTC.
Proof.
  intros [H _]. destruct H as [e He].
  - eexists _, (of_string "-5").
    split; [apply list_elem_of_In; left; reflexivity|].
    split; [vm_compute; reflexivity|].
    intros [_ Hdigits]. inversion Hdigits as [|c l Hc _]; subst.
    vm_compute in Hc. destruct Hc as [Hc _]. by apply Hc.
  - vm_compute in He. discriminate He.
Qed.

(** C6, amended. When some record's [Like(s)] value is missing or is a
    string the integer cast rejects, the aggregation raises; in a table that
    is built, every [Likes] is the integer the cast gives for its record's
    string, whatever its sign. *)
Theorem uncastable_like_count_is_fatal `{L : Library}
    (records : list record) (timezone : str) :
  ((exists r : record, r ∈ records /\ (r !! LIKES) ≫= py_int = None) ->
   exists e, build_table records timezone = Raise e)
  /\ (forall df, build_table records timezone = Ok df ->
        Forall2 (fun row (r : record) =>
                   (r !! LIKES) ≫= py_int = Some (Likes row)) df records).
Proof.
  split; [|apply build_table_Likes].
  intros (r & Hin & Hr).
  destruct (build_table records timezone) as [df|e] eqn:B; [|by eauto].
  apply build_table_Likes in B.
  destruct (proj1 (list_elem_of_lookup _ _) Hin) as [i Hi].
  destruct (Forall2_lookup_r _ _ _ _ _ B Hi) as (row & _ & Hrow).
  congruence.
Qed.

Lemma uncastable_like_count_is_fatal_witness :
  exists e,
    build_table (L := Reference.library)
      [ {[ DATE := of_string "2024-01-15T10:00:00Z"; LIKES := of_string "1.5" ]} ]
      Reference.UTC = Raise e.
Proof.
  apply (proj1 (uncastable_like_count_is_fatal (L := Reference.library) _ _)).
  eexists. split; [apply list_elem_of_In; left; reflexivity|].
  vm_compute. reflexivity.
Defined.

(** ** An unknown time zone *)

(** C7, counterexample: with a date that does not parse, the date column is
    converted first and its error is the one raised; the zone name is never
    looked up. *)
Lemma date_error_precedes_unknown_zone :
  ~ unknown_zone_reported_at (L := Reference.library)
      [ {[ DATE := of_string "not a date"; LIKES := of_string "1" ]} ]
      (of_string "Mars/Phobos").
Proof.
  intros H. specialize (H eq_refl). vm_compute in H. discriminate H.
Qed.

(** C7, amended. With a zone name that is not recognised the aggregation
    always raises.  The column selection and the date conversion come before
    the zone lookup: when both columns exist and the date column converts,
    the error is the unknown-zone error, whatever the [Like(s)] values are;
    when the date column does not convert, the error is the date error;
    when a column is missing, the error is the column error. *)
Theorem unknown_zone_is_fatal `{L : Library}
    (records : list record) (timezone : str) :
  tz_lookup timezone = None ->
  (exists e, build_table records timezone = Raise e)
  /\ (has_column records DATE = true -> has_column records LIKES = true ->
      is_Some (to_datetime (column records DATE)) ->
      build_table records timezone = Raise (UnknownTimeZoneError timezone))
  /\ (has_column records DATE = true -> has_column records LIKES = true ->
      to_datetime (column records DATE) = None ->
      build_table records timezone = Raise DateParseError)
  /\ (has_column records DATE = false \/ has_column records LIKES = false ->
      exists missing, build_table records timezone = Raise (KeyError missing)).
Proof.
  intros Hzone. split; [|split; [|split]]; [| | |apply build_table_missing].
  - destruct (build_table records timezone) as [df|e] eqn:B; [|by eauto].
    apply build_table_ok in B as (? & offset & ? & _ & _ & _ & Hz & _).
    congruence.
  - intros HD HL [dates Hdates].
    rewrite build_table_columns by done. by rewrite Hdates, Hzone.
  - intros HD HL Hdates.
    rewrite build_table_columns by done. by rewrite Hdates.
Qed.

Lemma unknown_zone_is_fatal_witness :
  build_table (L := Reference.library)
    [ {[ DATE := of_string "2024-01-15T10:00:00Z"; LIKES := of_string "many" ]} ]
    (of_string "Mars/Phobos")
  = Raise (UnknownTimeZoneError (of_string "Mars/Phobos")).
Proof.
  apply (unknown_zone_is_fatal (L := Reference.library)).
  - vm_compute. reflexivity.
  - vm_compute. reflexivity.
  - vm_compute. reflexivity.
  - vm_compute. eexists. reflexivity.
Defined.

(** ** No exception leaves [process_file_contents] *)

(** C10. For every text and zone name the call returns: either a table with
    one row per extracted record and no error message, or [None] after
    exactly one error message.  Missing columns, a date column that does not
    convert, an unknown zone and a like count the cast rejects each give
    [None]. *)
Theorem never_propagates `{L : Library} (file_contents timezone : str) :
  exists records,
    extract_records file_contents = Some records
    /\ ((exists df, process_file_contents file_contents timezone = Returns (Some df) []
                    /\ build_table records timezone = Ok df
                    /\ length df = length records)
        \/ (exists e, process_file_contents file_contents timezone = Returns None [e]
                      /\ build_table records timezone = Raise e))
    /\ (has_column records DATE = false \/ has_column records LIKES = false
        \/ to_datetime (column records DATE) = None
        \/ tz_lookup timezone = None
        \/ (exists cell, cell ∈ column records LIKES /\ cell ≫= py_int = None) ->
        exists e, process_file_contents file_contents timezone = Returns None [e]).
Proof.
  destruct (extract_records_total file_contents) as [records Hext].
  exists records. split; [done|].
  unfold process_file_contents. rewrite Hext.
  destruct (build_table records timezone) as [df|e] eqn:B.
  - split.
    + left. exists df. repeat split. by apply build_table_length in B.
    + intros H. exfalso.
      apply build_table_ok in B
        as (dates & offset & likes & HD & HL & Hdates & Hzone & Hcast & _).
      destruct H as [H|[H|[H|[H|H]]]]; try congruence.
      apply astype_int_raise in H as [e He]. congruence.
  - split; [right|]; by eauto.
Qed.

Lemma never_propagates_witness :
  exists e,
    process_file_contents (L := Reference.library)
      (of_string "Date: 2024-01-15T10:00:00Z
Like(s): 10
Adds yours text: x") (of_string "Mars/Phobos") = Returns None [e].
Proof.
  destruct (never_propagates (L := Reference.library)
              (of_string "Date: 2024-01-15T10:00:00Z
Like(s): 10
Adds yours text: x") (of_string "Mars/Phobos")) as (records & _ & _ & H).
  apply H. right. right. right. left. vm_compute. reflexivity.
Defined.

(** * Properties of [create_heatmap] *)

Section CompareFacts.

Lemma str_compare_eq a b : str_compare a b = Eq -> a = b.
Proof.
  revert b; induction a as [|x a IH]; intros [|y b]; simpl; try done.
  destruct (N.compare x y) eqn:C; try done.
  apply N.compare_eq in C as ->. by intros ->%IH.
Qed.

Lemma key_compare_eq k1 k2 : key_compare k1 k2 = Eq -> k1 = k2.
Proof.
  destruct k1 as [d1 h1], k2 as [d2 h2]. unfold key_compare. simpl.
  destruct (str_compare d1 d2) eqn:C; try done.
  apply str_compare_eq in C as ->. by intros ->%Z.compare_eq.
Qed.

Context {A : Type} (cmp : A -> A -> comparison).
Hypothesis cmp_eq : forall x y, cmp x y = Eq -> x = y.

Lemma elem_of_insert_unique x y l :
  y ∈ insert_unique cmp x l <-> y = x \/ y ∈ l.
Proof.
  induction l as [|z l IH]; simpl.
  - rewrite list_elem_of_singleton, elem_of_nil. tauto.
  - destruct (cmp x z) eqn:C.
    + apply cmp_eq in C as ->. rewrite elem_of_cons. tauto.
    + rewrite !elem_of_cons. tauto.
    + rewrite !elem_of_cons, IH. tauto.
Qed.

(** Sorting and dropping duplicates keeps exactly the values of the column. *)
Lemma elem_of_sort_unique y l : y ∈ sort_unique cmp l <-> y ∈ l.
Proof.
  induction l as [|x l IH]; simpl; [done|].
  rewrite elem_of_insert_unique, IH, elem_of_cons. tauto.
Qed.

End CompareFacts.

Section IndexFacts.
Context {A : Type} `{EqDecision A}.

Lemma index_of_Some (x : A) l i : index_of x l = Some i -> l !! i = Some x.
Proof.
  revert i; induction l as [|y l IH]; intros i; simpl; [done|].
  destruct (decide (y = x)) as [->|Hne].
  - by intros [= <-].
  - destruct (index_of x l) as [i'|]; simpl; [|done].
    intros [= <-]. by apply IH.
Qed.

Lemma index_of_elem (x : A) l : x ∈ l -> is_Some (index_of x l).
Proof.
  induction l as [|y l IH]; simpl; [by intros ?%elem_of_nil|].
  destruct (decide (y = x)) as [->|Hne]; [by eauto|].
  intros [?|Hin]%elem_of_cons; [congruence|].
  destruct (IH Hin) as [i ->]. by eauto.
Qed.

End IndexFacts.

Section HeatmapFacts.
Context `{L : Library}.




Lemma round_likes_groupby df :
  round_likes (groupby_mean df) =
  (fun k => (k, series_round2 (group_mean (group_likes df k))))
    <$> sort_unique key_compare (omap group_key df).
Proof.
  unfold round_likes, groupby_mean. rewrite <- list_fmap_compose. done.
Qed.

(** A key is observed exactly when its group has a row. *)
Lemma group_likes_nil df k :
  group_likes df k = [] <-> k ∉ omap group_key df.
Proof.
  unfold group_likes. rewrite list_elem_of_omap.
  induction df as [|r df IH]; simpl.
  - split; [|done]. intros _ (r & Hin & _). by apply elem_of_nil in Hin.
  - unfold in_group at 1. case_bool_decide as Hr; simpl.
    + split; [done|]. intros H. exfalso. apply H. exists r. split; [by left | done].
    + rewrite IH. split.
      * intros H (r' & [->|Hin]%elem_of_cons & Hr'); [done|]. apply H. by exists r'.
      * intros H (r' & Hin & Hr'). apply H. exists r'. split; [by right | done].
Qed.

End HeatmapFacts.

(** ** Rounding of the group means *)

(** Ties go to the even hundredth: 0.125 becomes 0.12, 0.375 becomes 0.38. *)
Example round2_ties_to_even :
  F64.round2 (PrimFloat.div (F64.of_Z 1) (F64.of_Z 8))
    = PrimFloat.div (F64.of_Z 12) F64.hundred
  /\ F64.round2 (PrimFloat.div (F64.of_Z 3) (F64.of_Z 8))
    = PrimFloat.div (F64.of_Z 38) F64.hundred.
Proof. split; vm_compute; reflexivity. Qed.

Section SmallGroups.










End SmallGroups.

Section CellFacts.
Context `{L : Library}.


End CellFacts.




(** * The example scenario *)

(** C2. On the example text with zone UTC the page shows a table of two
    rows, both with hour 10 on a Monday; the heat cell for Monday at 10 is
    15.0, the total of likes is 30 and their average 15.0. *)
Theorem example_scenario :
  exists r,
    main (L := Reference.library) Reference.UTC scenario = Some (Some r, [])
    /\ length (table r) = 2%nat
    /\ Forall (fun row => hour row = Some 10
                          /\ day_of_week row = Some (of_string "Monday"))
         (table r)
    /\ heat_cell (heatmap r) (of_string "Monday") 10 = Some (F64.of_Z 15)
    /\ total_likes r = 30
    /\ average_likes r = F64.of_Z 15.
Proof.
  eexists. split; [vm_compute; reflexivity|].
  cbn [table heatmap total_likes average_likes].
  split; [reflexivity|].
  split; [repeat constructor|].
  split; [vm_compute; reflexivity|].
  split; vm_compute; reflexivity.
Qed.

(** * Further properties of the string operations *)

Section StripFacts.

Lemma lstrip_split s :
  exists p, s = p ++ lstrip s /\ all_space p.
Proof.
  induction s as [|c s (p & Hs & Hp)]; simpl.
  - exists []. split; [done | constructor].
  - destruct (isspace c) eqn:E.
    + exists (c :: p). split; [by rewrite Hs at 1 | by constructor].
    + exists []. split; [done | constructor].
Qed.

Lemma lstrip_head s : no_space_left (lstrip s).
Proof.
  induction s as [|c s IH]; simpl; [by intros c|].
  destruct (isspace c) eqn:E; [done|]. intros c' [= <-]. done.
Qed.

Lemma lstrip_no_space s : no_space_left s -> lstrip s = s.
Proof.
  destruct s as [|c s]; simpl; [done|]. intros H. by rewrite (H c eq_refl).
Qed.

Lemma lstrip_all_space s : all_space s -> lstrip s = [].
Proof. induction 1 as [|c s Hc _ IH]; simpl; [done | by rewrite Hc]. Qed.

Lemma rstrip_split s :
  exists q, s = rstrip s ++ q /\ all_space q.
Proof.
  unfold rstrip. destruct (lstrip_split (rev s)) as (p & Hs & Hp).
  exists (rev p). split.
  - rewrite <- (rev_involutive s), Hs at 1. by rewrite rev_app_distr.
  - unfold all_space. apply Forall_forall. intros c Hc.
    apply (proj1 (Forall_forall _ _) Hp).
    apply list_elem_of_In, in_rev. by apply list_elem_of_In.
Qed.

Lemma last_rev_head (s : str) : last (rev s) = head s.
Proof.
  destruct s as [|c s]; simpl; [done|]. by rewrite last_snoc.
Qed.

Lemma rstrip_last s : no_space_right (rstrip s).
Proof.
  unfold rstrip, no_space_right. intros c. rewrite last_rev_head.
  apply lstrip_head.
Qed.

Lemma head_app_nonempty (s t : str) c : head s = Some c -> head (s ++ t) = Some c.
Proof. by destruct s. Qed.

(** Cutting whitespace off the right end leaves the left end as it was. *)
Lemma rstrip_keeps_left s : no_space_left s -> no_space_left (rstrip s).
Proof.
  intros H c Hc. apply H.
  destruct (rstrip_split s) as (q & Hs & _). rewrite Hs.
  by apply head_app_nonempty.
Qed.

End StripFacts.

(** X1. [strip] removes exactly a whitespace prefix and a whitespace suffix:
    what is left neither starts nor ends with whitespace, it is empty
    exactly when the line is all whitespace (the lines the loop skips), and
    stripping again changes nothing. *)
Theorem strip_trims (raw : str) :
  (exists p q, raw = p ++ strip raw ++ q /\ all_space p /\ all_space q)
  /\ no_space_left (strip raw)
  /\ no_space_right (strip raw)
  /\ (strip raw = [] <-> all_space raw)
  /\ strip (strip raw) = strip raw.
Proof.
  destruct (lstrip_split raw) as (p & Hraw & Hp).
  destruct (rstrip_split (lstrip raw)) as (q & Hl & Hq).
  assert (no_space_left (strip raw)) as Hleft
    by apply rstrip_keeps_left, lstrip_head.
  assert (no_space_right (strip raw)) as Hright by apply rstrip_last.
  split; [|split; [done|split; [done|split]]].
  - exists p, q. split; [|done]. unfold strip. by rewrite <- Hl.
  - split.
    + intros Hnil. unfold strip in Hnil. rewrite Hnil in Hl. simpl in Hl.
      rewrite Hraw, Hl. by apply Forall_app.
    + intros Hall. unfold strip. by rewrite (lstrip_all_space _ Hall).
  - unfold strip at 1. rewrite (lstrip_no_space _ Hleft).
    unfold rstrip at 1.
    rewrite lstrip_no_space, rev_involutive; [done|].
    intros c. rewrite <- last_rev_head, rev_involutive. apply Hright.
Qed.

Section FindFacts.

Lemma find_Some_starts sub s i :
  find sub s = Some i ->
  startswith sub (drop i s) = true /\ (i + length sub <= length s)%nat.
Proof.
  revert i; induction s as [|c s IH]; intros i.
  - simpl. destruct (startswith sub []) eqn:E; [|done].
    intros [= <-]. split; [done|].
    apply startswith_app in E as [t Ht]. by destruct sub.
  - cbn [find]. destruct (startswith sub (c :: s)) eqn:E.
    + intros [= <-]. split; [done|].
      apply startswith_app in E as [t Ht].
      apply (f_equal length) in Ht. rewrite length_app in Ht. simpl in *. lia.
    + destruct (find sub s) as [i'|]; simpl; [|done].
      intros [= <-]. destruct (IH i' eq_refl). simpl. split; [done | lia].
Qed.

(** [find] returns the first position at which the pattern starts. *)
Lemma find_first sub : forall i s,
  startswith sub (drop i s) = true ->
  (forall j, (j < i)%nat -> startswith sub (drop j s) = false) ->
  find sub s = Some i.
Proof.
  induction i as [|i IH]; intros s Hat Hbefore.
  - rewrite drop_0 in Hat. destruct s; simpl in *; by rewrite Hat.
  - pose proof (Hbefore O ltac:(lia)) as H0. rewrite drop_0 in H0.
    destruct s as [|c s]; [simpl in Hat; congruence|].
    cbn [find]. rewrite H0. simpl in Hat.
    rewrite (IH s Hat); [done|].
    intros j Hj. apply (Hbefore (S j)). lia.
Qed.

Lemma startswith_app_r p s t :
  startswith p s = true -> startswith p (s ++ t) = true.
Proof.
  intros [u ->]%startswith_app. apply startswith_app. exists (u ++ t).
  by rewrite app_assoc.
Qed.

End FindFacts.

Section PairFacts.

Lemma strip_no_space_left raw : no_space_left (strip raw).
Proof. apply rstrip_keeps_left, lstrip_head. Qed.

Lemma strip_no_space_right raw : no_space_right (strip raw).
Proof. apply rstrip_last. Qed.

(** What a stored pair says about its line. *)
Lemma line_pair_Some raw key value :
  line_pair raw = Some (key, value) ->
  strip raw = key ++ SEP ++ value /\ first_sep_at (length key) (strip raw).
Proof.
  unfold line_pair. cbn zeta.
  destruct (contains SEP (strip raw)) eqn:C; [|done].
  destruct (unpack2_split1 _ C) as (k & v & -> & Hline & Hfirst).
  intros [= <- <-]. split; [done|]. split; [|done].
  rewrite Hline at 1. rewrite drop_app_length.
  apply startswith_app. by exists v.
Qed.

Lemma line_pair_key_value raw key value :
  line_pair raw = Some (key, value) ->
  contains SEP key = false /\ no_space_left key
  /\ value <> [] /\ no_space_right value.
Proof.
  intros [Hline [_ Hfirst]]%line_pair_Some.
  pose proof (strip_no_space_left raw) as Hleft.
  pose proof (strip_no_space_right raw) as Hright.
  rewrite Hline in Hleft, Hright, Hfirst.
  split; [|split; [|split]].
  - unfold contains. destruct (find SEP key) as [i|] eqn:F; [|done].
    apply find_Some_starts in F as [Hat Hlen]. simpl in Hlen.
    assert (startswith SEP (drop i (key ++ SEP ++ value)) = true) as Hi
      by (rewrite drop_app_le by lia; by apply startswith_app_r).
    rewrite Hfirst in Hi by lia. done.
  - intros c Hc. apply Hleft. by apply head_app_nonempty.
  - intros ->. specialize (Hright 32%N). rewrite app_nil_r in Hright.
    rewrite last_app in Hright. by specialize (Hright eq_refl).
  - intros c Hc. apply Hright. rewrite app_assoc, last_app. by rewrite Hc.
Qed.

End PairFacts.

(** X2. The key/value rule splits a line at the first separator and loses
    nothing: a line stores the pair [(key, value)] exactly when the stripped
    line is [key ++ ": " ++ value] and the separator does not start anywhere
    before the end of [key]. *)
Theorem line_pair_iff (raw key value : str) :
  line_pair raw = Some (key, value) <->
  strip raw = key ++ SEP ++ value /\ first_sep_at (length key) (strip raw).
Proof.
  split; [apply line_pair_Some|].
  intros [Hline [Hat Hbefore]].
  pose proof (find_first SEP _ _ Hat Hbefore) as F.
  unfold line_pair, contains, split1. cbn zeta. rewrite F.
  rewrite Hline. rewrite take_app_length.
  rewrite app_assoc, <- (length_app key SEP), drop_app_length. done.
Qed.

(** X3. Every pair of every extracted record was read from a line of the
    text; its key contains no separator and has no whitespace on the left,
    its value is not empty and has no whitespace on the right. *)
Theorem extracted_pairs_trimmed
    (file_contents : str) (records : list record) (r : record) (key value : str) :
  extract_records file_contents = Some records ->
  r ∈ records ->
  r !! key = Some value ->
  (exists raw, raw ∈ split_nl file_contents /\ line_pair raw = Some (key, value))
  /\ contains SEP key = false /\ no_space_left key
  /\ value <> [] /\ no_space_right value.
Proof.
  intros Hext Hin Hkey.
  destruct (run_loop_blocks (split_nl file_contents) [] ∅ [] (Forall_nil_2 _)
              holds_pairs_nil)
    as (blocks & trailing & records' & current & (Hcut & _ & _) & Hrun & Hrec).
  unfold extract_records in Hext. rewrite Hrun in Hext.
  injection Hext as <-. cbn [app] in Hin, Hcut.
  destruct (proj1 (list_elem_of_lookup _ _) Hin) as [i Hi].
  destruct (Forall2_lookup_l _ _ _ _ _ Hrec Hi) as (b & Hb & Hholds).
  destruct (proj1 (Hholds key value) Hkey) as (ls1 & l & ls2 & Hlines & Hpair & _).
  split; [|by apply line_pair_key_value in Hpair].
  exists l. split; [|done].
  rewrite Hcut. apply elem_of_app. left.
  apply list_elem_of_In, in_concat. exists (block_lines b). split.
  - apply list_elem_of_In, list_elem_of_fmap. exists b. split; [done|].
    by apply list_elem_of_lookup_2 in Hb.
  - apply list_elem_of_In. rewrite Hlines. apply elem_of_app. right. by left.
Qed.

Lemma extracted_pairs_trimmed_witness :
  (exists raw, raw ∈ split_nl (of_string "Date : a b
Adds yours text:")
               /\ line_pair raw = Some (of_string "Date ", of_string "a b"))
  /\ contains SEP (of_string "Date ") = false
  /\ no_space_left (of_string "Date ")
  /\ of_string "a b" <> [] /\ no_space_right (of_string "a b").
Proof.
  apply (extracted_pairs_trimmed (of_string "Date : a b
Adds yours text:") [ {[ of_string "Date " := of_string "a b" ]} ]
           {[ of_string "Date " := of_string "a b" ]}).
  - vm_compute. reflexivity.
  - apply list_elem_of_In. left. reflexivity.
  - vm_compute. reflexivity.
Defined.

Section ComposeFacts.

(** The loop body looks at a line only through its stripped form. *)
Lemma loop_body_strip st a b :
  strip a = strip b -> loop_body st a = loop_body st b.
Proof. intros H. unfold loop_body. destruct st. by rewrite H. Qed.

Lemma run_loop_strip l1 l2 :
  Forall2 (fun a b => strip a = strip b) l1 l2 ->
  forall st, run_loop st l1 = run_loop st l2.
Proof.
  induction 1 as [|a b l1 l2 Hab _ IH]; intros st; cbn [run_loop]; [done|].
  rewrite (loop_body_strip st a b Hab).
  destruct (loop_body st b) as [st'|]; cbn [mbind option_bind]; [apply IH | done].
Qed.

(** Records already emitted play no part in what the loop does next. *)
Lemma run_loop_prepend lines : forall pre records current records' current',
  run_loop (records, current) lines = Some (records', current') ->
  run_loop (pre ++ records, current) lines = Some (pre ++ records', current').
Proof.
  induction lines as [|raw lines IH]; intros pre records current records' current';
    cbn [run_loop].
  - by intros [= <- <-].
  - rewrite !loop_body_eq. cbn [mbind option_bind].
    destruct (is_terminator raw); intros H.
    + rewrite <- app_assoc. by apply IH.
    + by apply IH.
Qed.

(** After a terminator line the in-progress record is empty. *)
Lemma run_loop_ends_empty ls l st st' :
  is_terminator l = true ->
  run_loop st (ls ++ [l]) = Some st' -> st'.2 = ∅.
Proof.
  intros Hl. rewrite run_loop_app.
  destruct (run_loop st ls) as [[records current]|]; cbn [mbind option_bind]; [|done].
  cbn [run_loop]. rewrite loop_body_eq, Hl. cbn [mbind option_bind].
  by intros [= <-].
Qed.

Lemma join_nl_cons c l ls : join_nl ((c :: l) :: ls) = c :: join_nl (l :: ls).
Proof. by destruct ls. Qed.

Lemma split_nl_no_newline (l : str) : 10%N ∉ l -> split_nl l = [l].
Proof.
  induction l as [|c l IH]; [done|]. intros Hnin.
  apply not_elem_of_cons in Hnin as [Hc Hl]. cbn [split_nl].
  destruct (N.eqb_spec c 10) as [->|_]; [done|]. by rewrite IH.
Qed.

End ComposeFacts.

(** X4. Text that ends with a terminator line can be extended: the records
    of the text followed by a newline and more text are the records of the
    first part followed by the records of the second. *)
Theorem extract_records_app (t1 t2 : str) :
  (exists ls l, split_nl t1 = ls ++ [l] /\ is_terminator l = true) ->
  exists r1 r2,
    extract_records t1 = Some r1
    /\ extract_records t2 = Some r2
    /\ extract_records (t1 ++ 10%N :: t2) = Some (r1 ++ r2).
Proof.
  intros (ls & l & Hsplit & Hl).
  destruct (run_loop_total (split_nl t1) ([], ∅)) as [[r1 c1] H1].
  destruct (run_loop_total (split_nl t2) ([], ∅)) as [[r2 c2] H2].
  exists r1, r2. unfold extract_records.
  rewrite split_nl_app, run_loop_app, H1, H2. repeat split.
  cbn [mbind option_bind].
  rewrite Hsplit in H1. apply (run_loop_ends_empty _ _ _ _ Hl) in H1 as Hc.
  cbn [snd] in Hc. subst c1.
  apply (run_loop_prepend _ r1) in H2. rewrite app_nil_r in H2. by rewrite H2.
Qed.

Lemma extract_records_app_witness :
  exists r1 r2,
    extract_records (of_string "Date: a
Adds yours text: x") = Some r1
    /\ extract_records (of_string "Date: b
Adds yours text: y") = Some r2
    /\ extract_records (of_string "Date: a
Adds yours text: x" ++ 10%N :: of_string "Date: b
Adds yours text: y") = Some (r1 ++ r2).
Proof.
  apply extract_records_app.
  exists [of_string "Date: a"], (of_string "Adds yours text: x").
  split; vm_compute; reflexivity.
Defined.

(** X5. Only the stripped lines matter: two texts whose lines agree after
    stripping (carriage returns before the newline, indentation, trailing
    blanks) yield the same records. *)
Theorem extract_records_strip (t1 t2 : str) :
  Forall2 (fun a b => strip a = strip b) (split_nl t1) (split_nl t2) ->
  extract_records t1 = extract_records t2.
Proof.
  intros H. unfold extract_records. by rewrite (run_loop_strip _ _ H).
Qed.

Lemma extract_records_strip_witness :
  extract_records (List.map N_of_ascii
    ["D";"a";"t";"e";":";" ";"a";"013";"010";
     " ";"A";"d";"d";"s";" ";"y";"o";"u";"r";"s";" ";"t";"e";"x";"t";":";"013"]%char)
  = extract_records (of_string "Date: a
Adds yours text:").
Proof.
  apply extract_records_strip. vm_compute. repeat constructor.
Defined.

(** X6. Splitting at newlines and joining with newlines are inverse: the
    lines of a text contain no newline and join back to the text, and a
    non-empty list of lines without newlines is what its joined text
    splits into. *)
Theorem split_nl_join :
  (forall s : str,
     join_nl (split_nl s) = s /\ Forall (fun l => 10%N ∉ l) (split_nl s))
  /\ (forall lines : list str,
        lines <> [] -> Forall (fun l => 10%N ∉ l) lines ->
        split_nl (join_nl lines) = lines).
Proof.
  split.
  - intros s. induction s as [|c s [IHj IHn]]; cbn [split_nl].
    + split; [done|]. repeat constructor. by intros ?%elem_of_nil.
    + destruct (split_nl_cons s) as (l & ls & Hs). rewrite Hs in *.
      destruct (N.eqb_spec c 10) as [->|Hc].
      * split.
        { change (join_nl ([] :: l :: ls)) with (10%N :: join_nl (l :: ls)).
          by rewrite IHj. }
        constructor; [by intros ?%elem_of_nil | done].
      * split; [by rewrite join_nl_cons, IHj|].
        inversion IHn as [|? ? Hl Hls]; subst. constructor; [|done].
        by intros [?|?]%elem_of_cons.
  - intros lines Hne Hnl. induction Hnl as [|l lines Hl Hlines IH]; [done|].
    destruct lines as [|l' lines].
    + cbn [join_nl]. by apply split_nl_no_newline.
    + change (join_nl (l :: l' :: lines)) with (l ++ 10%N :: join_nl (l' :: lines)).
      rewrite split_nl_app, IH by done. by rewrite split_nl_no_newline.
Qed.

Lemma split_nl_join_witness :
  split_nl (join_nl [of_string "Date: a"; []; of_string "Like(s): 1"])
  = [of_string "Date: a"; []; of_string "Like(s): 1"].
Proof.
  apply (proj2 split_nl_join); [done|].
  repeat constructor; vm_compute; intros H;
    repeat (apply elem_of_cons in H as [H|H]; [discriminate H|]);
    by apply elem_of_nil in H.
Defined.

(** * Further properties of the pipeline *)

Section TableFacts.
Context `{L : Library}.

Lemma build_table_empty timezone :
  build_table [] timezone = Raise (KeyError [DATE; LIKES]).
Proof. reflexivity. Qed.

(** Every row of a built table is [make_row] at the zone's offsets. *)
Lemma build_table_rows records timezone df :
  build_table records timezone = Ok df ->
  exists offset, tz_lookup timezone = Some offset
    /\ forall row, row ∈ df -> exists d n, row = make_row offset d n.
Proof.
  intros (dates & offset & likes & _ & _ & _ & Hz & _ & _ & ->)%build_table_ok.
  exists offset. split; [done|]. intros row Hrow.
  apply list_elem_of_lookup in Hrow as [i Hi].
  apply lookup_zip_with_Some in Hi as (d & n & -> & _ & _). by eauto.
Qed.

Lemma has_column_agree (rs1 rs2 : list record) name :
  Forall2 (fun r1 r2 : record => r1 !! name = r2 !! name) rs1 rs2 ->
  has_column rs1 name = has_column rs2 name /\ column rs1 name = column rs2 name.
Proof.
  induction 1 as [|r1 r2 rs1 rs2 Hr _ [IHh IHc]]; [done|].
  unfold has_column, column in *. cbn [existsb]. rewrite !fmap_cons.
  by rewrite Hr, IHh, IHc.
Qed.

End TableFacts.

Section ClockFacts.

Lemma hour_of_range local : 0 <= hour_of local < 24.
Proof. unfold hour_of. apply Z.mod_pos_bound. lia. Qed.

Lemma day_name_elem local : day_name local ∈ DAY_NAMES.
Proof.
  unfold day_name.
  assert (0 <= (local / NS_PER_DAY + 3) mod 7 < 7) as H
    by (apply Z.mod_pos_bound; lia).
  assert (forall n, (n < 7)%nat -> nth n DAY_NAMES [] ∈ DAY_NAMES) as Hnth.
  { intros n Hn.
    do 7 (destruct n as [|n]; [apply list_elem_of_In; simpl; tauto|]). lia. }
  apply Hnth. lia.
Qed.

(** Adding [k] periods of length [q * p] leaves [(x / p) mod q] alone. *)
Lemma div_mod_period x p q k :
  0 < p -> (x + k * (q * p)) / p mod q = (x / p) mod q.
Proof.
  intros Hp. replace (x + k * (q * p)) with (x + (k * q) * p) by lia.
  rewrite Z.div_add by lia.
  destruct (Z.eq_dec q 0) as [->|Hq].
  - by rewrite Z.mul_0_r, Z.add_0_r.
  - by rewrite Z.mod_add.
Qed.

End ClockFacts.

(** X7. Text with no terminator line yields no record at all, and then no
    empty table either: the column selection raises, naming both columns,
    whatever the zone; the call returns [None] and the page shows only
    that error. *)
Theorem no_terminator_no_table `{L : Library} (file_contents timezone : str) :
  Forall (fun raw => is_terminator raw = false) (split_nl file_contents) ->
  process_file_contents file_contents timezone
    = Returns None [KeyError [DATE; LIKES]]
  /\ main timezone file_contents = Some (None, [KeyError [DATE; LIKES]]).
Proof.
  intros Hlines.
  assert (extract_records file_contents = Some []) as Hext.
  { unfold extract_records.
    by destruct (run_loop_no_terminator _ Hlines [] ∅) as [c ->]. }
  unfold main, process_file_contents. by rewrite Hext, build_table_empty.
Qed.

Lemma no_terminator_no_table_witness :
  process_file_contents (L := Reference.library) (of_string "Date: 2024-01-15T10:00:00Z
Like(s): 3") Reference.UTC
    = Returns None [KeyError [DATE; LIKES]]
  /\ main (L := Reference.library) Reference.UTC (of_string "Date: 2024-01-15T10:00:00Z
Like(s): 3") = Some (None, [KeyError [DATE; LIKES]]).
Proof.
  apply (no_terminator_no_table (L := Reference.library)).
  vm_compute. repeat constructor.
Defined.

(** X8. The derived columns of a built table are consistent, row by row.  A
    row with no timestamp has none of them.  A row with a timestamp has an
    hour from 0 to 23, one of the seven day names, [AM] before noon and [PM]
    from noon on, and a time of day whose hour is that hour, with minutes and
    seconds below 60 and microseconds below 1000000. *)
Theorem table_rows_consistent `{L : Library}
    (records : list record) (timezone : str) (df : DataFrame) (row : PostRow) :
  build_table records timezone = Ok df ->
  row ∈ df ->
  match date row with
  | None =>
      day_of_week row = None /\ time row = None /\ time_period row = None
      /\ hour row = None /\ hour_12 row = None
  | Some _ =>
      exists h name m s us,
        hour row = Some h /\ 0 <= h < 24
        /\ day_of_week row = Some name /\ name ∈ DAY_NAMES
        /\ time_period row
           = Some (if h <? 12 then of_string "AM" else of_string "PM")
        /\ time row = Some (h, m, s, us)
        /\ 0 <= m < 60 /\ 0 <= s < 60 /\ 0 <= us < 1000000
  end.
Proof.
  intros Hdf Hrow.
  destruct (build_table_rows _ _ _ Hdf) as (offset & _ & Hrows).
  destruct (Hrows row Hrow) as (d & n & ->).
  destruct d as [t|]; cbn; [|done].
  set (local := t + offset t).
  exists (hour_of local), (day_name local),
    ((local / (60 * NS_PER_SECOND)) mod 60),
    ((local / NS_PER_SECOND) mod 60), ((local / NS_PER_US) mod 1000000).
  repeat split; try done;
    try (apply hour_of_range); try (apply day_name_elem);
    apply Z.mod_pos_bound; lia.
Qed.

Lemma table_rows_consistent_witness :
  exists h name m s us,
    Some 10 = Some h /\ 0 <= h < 24
    /\ Some (of_string "Monday") = Some name /\ name ∈ DAY_NAMES
    /\ Some (of_string "AM")
       = Some (if h <? 12 then of_string "AM" else of_string "PM")
    /\ Some (10, 30, 0, 0) = Some (h, m, s, us)
    /\ 0 <= m < 60 /\ 0 <= s < 60 /\ 0 <= us < 1000000.
Proof.
  apply (table_rows_consistent (L := Reference.library)
           [ {[ DATE := of_string "2024-01-15T10:30:00Z"; LIKES := of_string "20" ]} ]
           Reference.UTC
           [ make_row (fun _ => 0) (Some 1705314600000000000) 20 ]
           (make_row (fun _ => 0) (Some 1705314600000000000) 20)).
  - vm_compute. reflexivity.
  - apply list_elem_of_In. left. reflexivity.
Defined.

(** X9. The 12-hour columns determine the hour: [strftime('%I')] is the two
    digits of a number from 1 to 12, and the hour is that number modulo 12,
    plus 12 when [strftime('%p')] is [PM]. *)
Theorem twelve_hour_clock (local : Z) :
  exists n,
    1 <= n <= 12
    /\ strftime_I local = two_digits n
    /\ Reference.number (strftime_I local) = Some n
    /\ ((strftime_p local = of_string "AM" /\ hour_of local = n mod 12)
        \/ (strftime_p local = of_string "PM" /\ hour_of local = n mod 12 + 12)).
Proof.
  unfold strftime_I, strftime_p.
  pose proof (hour_of_range local) as Hh. revert Hh.
  generalize (hour_of local). intros h Hh.
  assert (h = 0 \/ h = 1 \/ h = 2 \/ h = 3 \/ h = 4 \/ h = 5 \/ h = 6 \/ h = 7
          \/ h = 8 \/ h = 9 \/ h = 10 \/ h = 11 \/ h = 12 \/ h = 13 \/ h = 14
          \/ h = 15 \/ h = 16 \/ h = 17 \/ h = 18 \/ h = 19 \/ h = 20 \/ h = 21
          \/ h = 22 \/ h = 23) as Hcases by lia.
  exists (if h mod 12 =? 0 then 12 else h mod 12).
  repeat (destruct Hcases as [->|Hcases]); try subst h;
    (split; [vm_compute; split; discriminate|]; split; [reflexivity|]; split; [reflexivity|];
     (left; split; reflexivity) || (right; split; reflexivity)).
Qed.

(** X12. Only the [Date] and [Like(s)] fields of the records are used: two
    record lists that agree on these two fields, record by record, give the
    same table or the same error. *)
Theorem other_keys_ignored `{L : Library}
    (rs1 rs2 : list record) (timezone : str) :
  Forall2 (fun r1 r2 : record =>
             r1 !! DATE = r2 !! DATE /\ r1 !! LIKES = r2 !! LIKES) rs1 rs2 ->
  build_table rs1 timezone = build_table rs2 timezone.
Proof.
  intros H.
  destruct (has_column_agree rs1 rs2 DATE) as [HhD HcD];
    [by eapply Forall2_impl; [exact H | intros ? ? [? _]]|].
  destruct (has_column_agree rs1 rs2 LIKES) as [HhL HcL];
    [by eapply Forall2_impl; [exact H | intros ? ? [_ ?]]|].
  unfold build_table, project. cbn [List.filter negb].
  by rewrite HhD, HhL, HcD, HcL.
Qed.

Lemma other_keys_ignored_witness :
  build_table (L := Reference.library)
    [ {[ DATE := of_string "2024-01-15T10:00:00Z"; LIKES := of_string "10";
         of_string "Adds yours text" := of_string "x" ]} ] Reference.UTC
  = build_table (L := Reference.library)
    [ {[ DATE := of_string "2024-01-15T10:00:00Z"; LIKES := of_string "10" ]} ]
    Reference.UTC.
Proof.
  apply (other_keys_ignored (L := Reference.library)).
  repeat constructor; vm_compute; reflexivity.
Defined.

(** X13. The zone only affects the derived columns: tables built from the
    same records for two zones hold the same instants and the same like
    counts in the same order; and once a table is built for one zone, the
    only thing that can fail for another known zone is the computation of
    the derived columns. *)
Theorem zone_keeps_instants_and_likes `{L : Library}
    (records : list record) (tz1 tz2 : str) (df1 : DataFrame) :
  build_table records tz1 = Ok df1 ->
  is_Some (tz_lookup tz2) ->
  (exists df2,
     build_table records tz2 = Ok df2
     /\ date <$> df2 = date <$> df1
     /\ Likes <$> df2 = Likes <$> df1)
  \/ build_table records tz2 = Raise DerivedColumnError.
Proof.
  intros (dates & off1 & likes & HD & HL & Hd & _ & Hl & _ & ->)%build_table_ok
         [off2 Hz].
  destruct (dt_columns_ok off2 dates) eqn:D.
  - left. exists (zip_with (make_row off2) dates likes). split.
    + apply build_table_ok. by exists dates, off2, likes.
    + clear. revert likes. induction dates as [|d dates IH]; intros [|n likes];
        try done. cbn. destruct (IH likes) as [-> ->]. done.
  - right. rewrite build_table_columns by done. rewrite Hd, Hz, Hl.
    cbn [or_raise mbind result_bind]. by rewrite D.
Qed.

Lemma zone_keeps_instants_and_likes_witness :
  (exists df2,
     build_table (L := Reference.library)
       [ {[ DATE := of_string "2024-01-15T03:00:00Z"; LIKES := of_string "10" ]} ]
       Reference.ETC_GMT_PLUS_8 = Ok df2
     /\ date <$> df2 = date <$> [ make_row (fun _ => 0) (Some 1705287600000000000) 10 ]
     /\ Likes <$> df2 = Likes <$> [ make_row (fun _ => 0) (Some 1705287600000000000) 10 ])
  \/ build_table (L := Reference.library)
       [ {[ DATE := of_string "2024-01-15T03:00:00Z"; LIKES := of_string "10" ]} ]
       Reference.ETC_GMT_PLUS_8 = Raise DerivedColumnError.
Proof.
  apply (zone_keeps_instants_and_likes (L := Reference.library) _ Reference.UTC).
  - vm_compute. reflexivity.
  - vm_compute. eexists. reflexivity.
Defined.

(** X14. A post one week later, under the same UTC offset, gets the same
    day name, hour, time of day and 12-hour columns, hence the same heat
    cell. *)
Theorem same_cell_a_week_later (offset : Z -> Z) (t likes : Z) :
  offset (t + 7 * NS_PER_DAY) = offset t ->
  let r := make_row offset (Some t) likes in
  let r' := make_row offset (Some (t + 7 * NS_PER_DAY)) likes in
  day_of_week r' = day_of_week r /\ hour r' = hour r /\ time r' = time r
  /\ time_period r' = time_period r /\ hour_12 r' = hour_12 r
  /\ group_key r' = group_key r.
Proof.
  intros Hoff. cbn zeta.
  assert (hour_of (t + 7 * NS_PER_DAY + offset t) = hour_of (t + offset t)) as Hh.
  { unfold hour_of.
    replace (t + 7 * NS_PER_DAY + offset t)
      with (t + offset t + 7 * (24 * NS_PER_HOUR)) by (unfold NS_PER_DAY; lia).
    apply div_mod_period. by vm_compute. }
  assert (day_name (t + 7 * NS_PER_DAY + offset t) = day_name (t + offset t)) as Hd.
  { unfold day_name. f_equal. f_equal.
    replace (t + 7 * NS_PER_DAY + offset t)
      with (t + offset t + 7 * NS_PER_DAY) by lia.
    rewrite Z.div_add by (by vm_compute).
    replace ((t + offset t) / NS_PER_DAY + 7 + 3)
      with ((t + offset t) / NS_PER_DAY + 3 + 1 * 7) by lia.
    by rewrite Z.mod_add. }
  assert (time_of (t + 7 * NS_PER_DAY + offset t) = time_of (t + offset t)) as Ht.
  { unfold time_of. rewrite Hh. f_equal; [f_equal; [f_equal|]|].
    - replace (t + 7 * NS_PER_DAY + offset t)
        with (t + offset t + 168 * (60 * (60 * NS_PER_SECOND)))
        by (unfold NS_PER_DAY, NS_PER_HOUR; lia).
      apply div_mod_period. by vm_compute.
    - replace (t + 7 * NS_PER_DAY + offset t)
        with (t + offset t + 10080 * (60 * NS_PER_SECOND))
        by (unfold NS_PER_DAY, NS_PER_HOUR; lia).
      apply div_mod_period. by vm_compute.
    - replace (t + 7 * NS_PER_DAY + offset t)
        with (t + offset t + 604800 * (1000000 * NS_PER_US))
        by (unfold NS_PER_DAY, NS_PER_HOUR, NS_PER_SECOND, NS_PER_US; lia).
      apply div_mod_period. by vm_compute. }
  unfold group_key, make_row.
  cbn [day_of_week hour time time_period hour_12 fmap option_fmap option_map].
  rewrite Hoff. unfold strftime_p, strftime_I. by rewrite Hh, Hd, Ht.
Qed.

Lemma same_cell_a_week_later_witness :
  let r := make_row (fun _ => 0) (Some 1705312800000000000) 5 in
  let r' := make_row (fun _ => 0) (Some (1705312800000000000 + 7 * NS_PER_DAY)) 5 in
  day_of_week r' = day_of_week r /\ hour r' = hour r /\ time r' = time r
  /\ time_period r' = time_period r /\ hour_12 r' = hour_12 r
  /\ group_key r' = group_key r.
Proof.
  apply (same_cell_a_week_later (fun _ => 0) 1705312800000000000 5). reflexivity.
Defined.

(** * Further properties of [create_heatmap] *)

Section OrderFacts.

Lemma str_compare_refl a : str_compare a a = Eq.
Proof.
  induction a as [|x a IH]; cbn [str_compare]; [done|].
  by rewrite N.compare_refl.
Qed.

Lemma str_compare_antisym a b : str_compare b a = CompOpp (str_compare a b).
Proof.
  revert b; induction a as [|x a IH]; intros [|y b]; cbn [str_compare]; try done.
  rewrite (N.compare_antisym x y).
  destruct (N.compare x y); cbn [CompOpp]; [apply IH | done | done].
Qed.

Lemma str_compare_lt_trans a b c :
  str_compare a b = Lt -> str_compare b c = Lt -> str_compare a c = Lt.
Proof.
  revert b c; induction a as [|x a IH]; intros [|y b] [|z c];
    cbn [str_compare]; try done.
  destruct (N.compare x y) eqn:Hxy; try done;
    destruct (N.compare y z) eqn:Hyz; try done.
  - apply N.compare_eq in Hxy as ->. rewrite Hyz. apply IH.
  - apply N.compare_eq in Hxy as ->. by rewrite Hyz.
  - apply N.compare_eq in Hyz as ->. by rewrite Hxy.
  - apply N.compare_lt_iff in Hxy. apply N.compare_lt_iff in Hyz.
    by rewrite (proj2 (N.compare_lt_iff x z) (N.lt_trans _ _ _ Hxy Hyz)).
Qed.

Lemma key_compare_antisym k1 k2 : key_compare k2 k1 = CompOpp (key_compare k1 k2).
Proof.
  destruct k1 as [d1 h1], k2 as [d2 h2]. unfold key_compare. cbn [fst snd].
  rewrite (str_compare_antisym d1 d2).
  destruct (str_compare d1 d2); cbn [CompOpp]; try done.
  apply Z.compare_antisym.
Qed.

Lemma key_compare_lt_trans k1 k2 k3 :
  key_compare k1 k2 = Lt -> key_compare k2 k3 = Lt -> key_compare k1 k3 = Lt.
Proof.
  destruct k1 as [d1 h1], k2 as [d2 h2], k3 as [d3 h3].
  unfold key_compare. cbn [fst snd].
  destruct (str_compare d1 d2) eqn:C12; try done;
    destruct (str_compare d2 d3) eqn:C23; try done.
  - apply str_compare_eq in C12 as ->. apply str_compare_eq in C23 as ->.
    rewrite str_compare_refl. intros H1 H2. apply Z.compare_lt_iff.
    change (h1 < h2) in H1. change (h2 < h3) in H2. lia.
  - apply str_compare_eq in C12 as ->. by rewrite C23.
  - apply str_compare_eq in C23 as ->. by rewrite C12.
  - by rewrite (str_compare_lt_trans _ _ _ C12 C23).
Qed.

Lemma Z_compare_lt_trans x y z :
  Z.compare x y = Lt -> Z.compare y z = Lt -> Z.compare x z = Lt.
Proof. intros H1 H2. change (x < y) in H1. change (y < z) in H2. apply Z.compare_lt_iff. lia. Qed.

Context {A : Type} (cmp : A -> A -> comparison).
Hypothesis cmp_eq : forall x y, cmp x y = Eq -> x = y.
Hypothesis cmp_antisym : forall x y, cmp y x = CompOpp (cmp x y).
Hypothesis cmp_lt_trans :
  forall x y z, cmp x y = Lt -> cmp y z = Lt -> cmp x z = Lt.

Let ascending := StronglySorted (fun x y => cmp x y = Lt).

Lemma insert_unique_ascending x l :
  ascending l -> ascending (insert_unique cmp x l).
Proof.
  induction 1 as [|y l Hl IH Hy]; cbn [insert_unique].
  - repeat constructor.
  - destruct (cmp x y) eqn:C.
    + by constructor.
    + constructor; [by constructor|]. constructor; [done|].
      eapply Forall_impl; [exact Hy|]. intros z Hz. by eapply cmp_lt_trans.
    + constructor; [done|]. apply Forall_forall. intros z Hz.
      apply (elem_of_insert_unique cmp cmp_eq) in Hz as [->|Hz].
      * by rewrite cmp_antisym, C.
      * by apply (proj1 (Forall_forall _ _) Hy).
Qed.

(** The labels come out in strictly ascending order. *)
Lemma sort_unique_ascending l : ascending (sort_unique cmp l).
Proof.
  induction l as [|x l IH]; cbn [sort_unique foldr]; [constructor|].
  by apply insert_unique_ascending.
Qed.

Lemma ascending_NoDup l : ascending l -> NoDup l.
Proof.
  induction 1 as [|y l Hl IH Hy]; constructor; [|done].
  intros Hin. pose proof (proj1 (Forall_forall _ _) Hy y Hin) as Hyy.
  pose proof (cmp_antisym y y) as Ha. rewrite Hyy in Ha. done.
Qed.

Lemma sort_unique_NoDup l : NoDup (sort_unique cmp l).
Proof. apply ascending_NoDup, sort_unique_ascending. Qed.

End OrderFacts.

Section GroupFacts.
Context `{L : Library}.

Lemma elem_of_group_keys df k :
  k ∈ sort_unique key_compare (omap group_key df) <->
  exists r, r ∈ df /\ group_key r = Some k.
Proof.
  rewrite (elem_of_sort_unique key_compare key_compare_eq).
  apply list_elem_of_omap.
Qed.

Lemma groupby_mean_keys df :
  fst <$> round_likes (groupby_mean df)
  = sort_unique key_compare (omap group_key df).
Proof.
  rewrite round_likes_groupby, <- list_fmap_compose.
  apply list_fmap_id.
Qed.

End GroupFacts.

Section MatrixFacts.
Context `{L : Library}.

Lemma heatmap_index df :
  index (create_heatmap df)
  = sort_unique str_compare
      (fst <$> sort_unique key_compare (omap group_key df)).
Proof.
  unfold create_heatmap, pivot. cbn [index].
  by rewrite <- groupby_mean_keys, <- list_fmap_compose.
Qed.

Lemma heatmap_columns df :
  columns (create_heatmap df)
  = sort_unique Z.compare
      (snd <$> sort_unique key_compare (omap group_key df)).
Proof.
  unfold create_heatmap, pivot. cbn [columns].
  by rewrite <- groupby_mean_keys, <- list_fmap_compose.
Qed.

Lemma elem_of_heatmap_index df d :
  d ∈ index (create_heatmap df) <->
  exists r h, r ∈ df /\ group_key r = Some (d, h).
Proof.
  rewrite heatmap_index, (elem_of_sort_unique str_compare str_compare_eq).
  rewrite list_elem_of_fmap. split.
  - intros ([d' h] & -> & (r & Hr & Hk)%elem_of_group_keys). by exists r, h.
  - intros (r & h & Hr & Hk). exists (d, h). split; [done|].
    apply elem_of_group_keys. by exists r.
Qed.

Lemma elem_of_heatmap_columns df h :
  h ∈ columns (create_heatmap df) <->
  exists r d, r ∈ df /\ group_key r = Some (d, h).
Proof.
  rewrite heatmap_columns, (elem_of_sort_unique Z.compare Z.compare_eq).
  rewrite list_elem_of_fmap. split.
  - intros ([d h'] & -> & (r & Hr & Hk)%elem_of_group_keys). by exists r, d.
  - intros (r & d & Hr & Hk). exists (d, h). split; [done|].
    apply elem_of_group_keys. by exists r.
Qed.

Lemma group_key_Some r d h :
  group_key r = Some (d, h) <-> day_of_week r = Some d /\ hour r = Some h.
Proof.
  unfold group_key. destruct (day_of_week r), (hour r); cbn; split;
    try done; try (by intros [= <- <-]); try (by intros [[= <-] [= <-]]);
    by intros [? ?].
Qed.

End MatrixFacts.

(** X15. The pivoted frame is a rectangle with ordered labels: it has one
    row of cells per row label and one cell per column label in each row;
    the day names are in strictly ascending string order and the hours in
    strictly ascending numeric order, so no label is repeated. *)
Theorem heatmap_shape `{L : Library} (df : DataFrame) :
  length (values (create_heatmap df)) = length (index (create_heatmap df))
  /\ Forall (fun row => length row = length (columns (create_heatmap df)))
       (values (create_heatmap df))
  /\ StronglySorted (fun a b => str_compare a b = Lt) (index (create_heatmap df))
  /\ StronglySorted Z.lt (columns (create_heatmap df)).
Proof.
  split; [|split; [|split]].
  - unfold create_heatmap, pivot. cbn [values index]. by rewrite length_fmap.
  - unfold create_heatmap, pivot. cbn [values columns].
    apply Forall_fmap, Forall_forall. intros d _. cbn. by rewrite length_fmap.
  - rewrite heatmap_index.
    apply sort_unique_ascending;
      [apply str_compare_eq | apply str_compare_antisym | apply str_compare_lt_trans].
  - rewrite heatmap_columns.
    apply (sort_unique_ascending Z.compare);
      [apply Z.compare_eq | apply Z.compare_antisym | apply Z_compare_lt_trans].
Qed.

(** X16. The labels are exactly what the table holds: a day name labels a
    row of the matrix exactly when some table row has that day name and an
    hour, and an hour labels a column exactly when some table row has that
    hour and a day name. *)
Theorem heatmap_labels `{L : Library} (df : DataFrame) :
  (forall d, d ∈ index (create_heatmap df) <->
     exists r h, r ∈ df /\ day_of_week r = Some d /\ hour r = Some h)
  /\ (forall h, h ∈ columns (create_heatmap df) <->
        exists r d, r ∈ df /\ day_of_week r = Some d /\ hour r = Some h).
Proof.
  split.
  - intros d. rewrite elem_of_heatmap_index.
    split; intros (r & h & Hr & Hk); exists r, h; split; try done;
      by apply group_key_Some.
  - intros h. rewrite elem_of_heatmap_columns.
    split; intros (r & d & Hr & Hk); exists r, d; split; try done;
      by apply group_key_Some.
Qed.

(** X17. For a table built by the pipeline the matrix has at most 7 rows
    and at most 24 columns. *)
Theorem heatmap_at_most_7_by_24 `{L : Library}
    (records : list record) (timezone : str) (df : DataFrame) :
  build_table records timezone = Ok df ->
  (length (index (create_heatmap df)) <= 7)%nat
  /\ (length (columns (create_heatmap df)) <= 24)%nat.
Proof.
  intros Hdf. destruct (build_table_rows _ _ _ Hdf) as (offset & _ & Hrows).
  split.
  - change 7%nat with (length DAY_NAMES).
    apply submseteq_length, NoDup_submseteq.
    + rewrite heatmap_index.
      apply sort_unique_NoDup;
        [apply str_compare_eq | apply str_compare_antisym | apply str_compare_lt_trans].
    + intros d (r & h & Hr & [Hd _]%group_key_Some)%elem_of_heatmap_index.
      destruct (Hrows r Hr) as ([t|] & n & ->); cbn in Hd; [|done].
      injection Hd as <-. apply day_name_elem.
  - change 24%nat with (length (Z.of_nat <$> seq 0 24)).
    apply submseteq_length, NoDup_submseteq.
    + rewrite heatmap_columns.
      apply (sort_unique_NoDup Z.compare);
        [apply Z.compare_eq | apply Z.compare_antisym | apply Z_compare_lt_trans].
    + intros h (r & d & Hr & [_ Hh]%group_key_Some)%elem_of_heatmap_columns.
      destruct (Hrows r Hr) as ([t|] & n & ->); cbn in Hh; [|done].
      injection Hh as <-.
      pose proof (hour_of_range (t + offset t)) as Hrange.
      apply list_elem_of_fmap. exists (Z.to_nat (hour_of (t + offset t))).
      split; [lia|]. apply elem_of_seq. lia.
Qed.

Lemma heatmap_at_most_7_by_24_witness :
  let df : DataFrame := [ make_row (fun _ => 0) (Some 1705312800000000000) 10 ] in
  (length (index (create_heatmap df)) <= 7)%nat
  /\ (length (columns (create_heatmap df)) <= 24)%nat.
Proof.
  intros df.
  apply (heatmap_at_most_7_by_24 (L := Reference.library)
           [ {[ DATE := of_string "2024-01-15T10:00:00Z"; LIKES := of_string "10" ]} ]
           Reference.UTC).
  vm_compute. reflexivity.
Defined.

Section CountFacts.

Lemma omap_group_key_cons r df :
  omap group_key (r :: df)
  = match group_key r with
    | Some k => k :: omap group_key df
    | None => omap group_key df
    end.
Proof. reflexivity. Qed.

Lemma group_likes_cons df r k :
  group_likes (r :: df) k
  = if bool_decide (group_key r = Some k)
    then Likes r :: group_likes df k else group_likes df k.
Proof.
  unfold group_likes, in_group. cbn [List.filter].
  by destruct (bool_decide (group_key r = Some k)).
Qed.

Lemma sum_list_fmap_add {A : Type} (f g : A -> nat) l :
  sum_list ((fun x => f x + g x)%nat <$> l)
  = (sum_list (f <$> l) + sum_list (g <$> l))%nat.
Proof. induction l as [|x l IH]; cbn; [done | rewrite IH; lia]. Qed.

(** In a list without repetition a key is met once, or never. *)
Lemma sum_list_indicator (o : option (str * Z)) keys :
  NoDup keys ->
  sum_list ((fun k => if bool_decide (o = Some k) then 1 else 0)%nat <$> keys)
  = match o with
    | Some k0 => if decide (k0 ∈ keys) then 1%nat else 0%nat
    | None => 0%nat
    end.
Proof.
  induction 1 as [|k keys Hk Hnd IH]; cbn [fmap list_fmap sum_list sum_list_with].
  - destruct o; [|done]. by rewrite decide_False by apply not_elem_of_nil.
  - change (list_fmap _ _ ?f keys) with (f <$> keys). rewrite IH.
    destruct o as [k0|]; [|by rewrite bool_decide_eq_false_2].
    case_bool_decide as Hk0.
    + injection Hk0 as ->. rewrite decide_False by done.
      rewrite decide_True by (by left). done.
    + destruct (decide (k0 ∈ keys)) as [Hin|Hnin].
      * rewrite decide_True by (by right). done.
      * rewrite decide_False; [done|].
        intros [->|?]%elem_of_cons; [by apply Hk0 | done].
Qed.

(** Over keys without repetition that cover the table, the group sizes add
    up to the number of rows that have a key. *)
Lemma group_sizes_sum keys : NoDup keys -> forall df,
  (forall k, k ∈ omap group_key df -> k ∈ keys) ->
  sum_list ((fun k => length (group_likes df k)) <$> keys)
  = length (omap group_key df).
Proof.
  intros Hnd. induction df as [|r df IH]; intros Hcover.
  - clear. induction keys as [|k keys IH]; [done|].
    rewrite fmap_cons. cbn [sum_list_with]. by rewrite IH.
  - rewrite (list_fmap_ext (fun k => length (group_likes (r :: df) k))
      (fun k => ((if bool_decide (group_key r = Some k) then 1 else 0)
                 + length (group_likes df k))%nat) keys)
      by (intros i k _; rewrite group_likes_cons;
          by destruct (bool_decide (group_key r = Some k))).
    rewrite (sum_list_fmap_add
      (fun k => if bool_decide (group_key r = Some k) then 1 else 0)%nat
      (fun k => length (group_likes df k))).
    rewrite sum_list_indicator by done.
    rewrite omap_group_key_cons in Hcover |- *.
    destruct (group_key r) as [k0|].
    + rewrite decide_True by (apply Hcover; by left).
      rewrite IH; [done|]. intros k Hk. apply Hcover. by right.
    + by rewrite IH.
Qed.

Lemma omap_group_key_filter df :
  omap group_key
    (List.filter (fun r => bool_decide (is_Some (group_key r))) df)
  = omap group_key df.
Proof.
  induction df as [|r df IH]; [done|]. cbn [List.filter].
  destruct (group_key r) as [k|] eqn:K.
  - rewrite bool_decide_eq_true_2 by done.
    by rewrite !omap_group_key_cons, K, IH.
  - rewrite bool_decide_eq_false_2 by (by intros [? ?]).
    by rewrite omap_group_key_cons, K.
Qed.

Lemma group_likes_filter df k :
  group_likes (List.filter (fun r => bool_decide (is_Some (group_key r))) df) k
  = group_likes df k.
Proof.
  induction df as [|r df IH]; [done|]. cbn [List.filter].
  destruct (group_key r) as [k'|] eqn:K.
  - rewrite bool_decide_eq_true_2 by done.
    by rewrite !group_likes_cons, IH.
  - rewrite bool_decide_eq_false_2 by (by intros [? ?]).
    rewrite group_likes_cons, K. by rewrite bool_decide_eq_false_2.
Qed.

End CountFacts.

(** X18. Rows without a day name or an hour (the rows with no timestamp)
    play no part in the heatmap: dropping them from the table leaves every
    label and every cell as it was. *)
Theorem heatmap_ignores_unkeyed_rows `{L : Library} (df : DataFrame) :
  create_heatmap
    (List.filter (fun r => bool_decide (is_Some (group_key r))) df)
  = create_heatmap df.
Proof.
  unfold create_heatmap, groupby_mean. rewrite omap_group_key_filter.
  do 2 f_equal. apply list_fmap_ext. intros i k _.
  by rewrite group_likes_filter.
Qed.

(** X19. Grouping counts every post once: each row of the grouped table
    stands for a non-empty group, and the group sizes add up to the number
    of table rows that have a day name and an hour. *)
Theorem posts_counted_once `{L : Library} (df : DataFrame) :
  Forall (fun e => group_likes df e.1 <> []) (groupby_mean df)
  /\ sum_list ((fun e => length (group_likes df e.1)) <$> groupby_mean df)
     = length (omap group_key df).
Proof.
  unfold groupby_mean. split.
  - apply Forall_fmap, Forall_forall. intros k Hk. cbn.
    apply (proj1 (elem_of_sort_unique key_compare key_compare_eq _ _)) in Hk.
    intros Hnil%group_likes_nil. done.
  - rewrite <- list_fmap_compose.
    apply (group_sizes_sum _ (sort_unique_NoDup key_compare key_compare_eq
             key_compare_antisym key_compare_lt_trans _)).
    intros k Hk. by apply (elem_of_sort_unique key_compare key_compare_eq).
Qed.

(** * Properties of the zone selection in [main] *)

Section SortedFacts.

Lemma insert_sorted_Permutation x l : insert_sorted x l ≡ₚ x :: l.
Proof.
  induction l as [|y l IH]; cbn [insert_sorted]; [done|].
  destruct (str_compare x y); try done.
  rewrite IH. apply Permutation_swap.
Qed.

Lemma sorted_Permutation names : sorted names ≡ₚ names.
Proof.
  induction names as [|x names IH]; [done|]. cbn [sorted foldr].
  rewrite insert_sorted_Permutation. by constructor.
Qed.

Lemma str_compare_le_trans a b c :
  str_compare a b <> Gt -> str_compare b c <> Gt -> str_compare a c <> Gt.
Proof.
  destruct (str_compare a b) eqn:Hab; [| |done];
    destruct (str_compare b c) eqn:Hbc; try done; intros _ _.
  - apply str_compare_eq in Hab as ->. by rewrite Hbc.
  - apply str_compare_eq in Hab as ->. by rewrite Hbc.
  - apply str_compare_eq in Hbc as ->. by rewrite Hab.
  - by rewrite (str_compare_lt_trans _ _ _ Hab Hbc).
Qed.

Lemma insert_sorted_ascending x l :
  StronglySorted (fun a b => str_compare a b <> Gt) l ->
  StronglySorted (fun a b => str_compare a b <> Gt) (insert_sorted x l).
Proof.
  induction 1 as [|y l Hl IH Hy]; cbn [insert_sorted].
  - repeat constructor.
  - destruct (str_compare x y) eqn:C.
    + constructor; [by constructor|]. constructor; [by rewrite C|].
      eapply Forall_impl; [exact Hy|]. intros z Hz.
      apply (str_compare_le_trans x y z); [by rewrite C | done].
    + constructor; [by constructor|]. constructor; [by rewrite C|].
      eapply Forall_impl; [exact Hy|]. intros z Hz.
      apply (str_compare_le_trans x y z); [by rewrite C | done].
    + constructor; [done|]. apply Forall_forall. intros z Hz.
      rewrite insert_sorted_Permutation in Hz.
      apply elem_of_cons in Hz as [->|Hz].
      * by rewrite str_compare_antisym, C.
      * by apply (proj1 (Forall_forall _ _) Hy).
Qed.

Lemma index_of_first {A : Type} `{EqDecision A} (x : A) l i :
  index_of x l = Some i -> forall j, (j < i)%nat -> l !! j <> Some x.
Proof.
  revert i; induction l as [|y l IH]; intros i; cbn [index_of]; [done|].
  destruct (decide (y = x)) as [->|Hne].
  - intros [= <-] j Hj. lia.
  - destruct (index_of x l) as [i'|]; cbn; [|done].
    intros [= <-] [|j] Hj; cbn; [congruence|]. apply (IH i' eq_refl). lia.
Qed.

Lemma index_of_None {A : Type} `{EqDecision A} (x : A) l :
  x ∉ l -> index_of x l = None.
Proof.
  induction l as [|y l IH]; cbn [index_of]; [done|].
  intros [Hne Hnin]%not_elem_of_cons.
  rewrite decide_False by done. by rewrite IH.
Qed.

End SortedFacts.

(** X21. The options of the select box are the zone names rearranged in
    ascending string order: nothing is added, dropped or merged. *)
Theorem timezone_list_sorted (all_timezones : list str) :
  timezone_list all_timezones ≡ₚ all_timezones
  /\ StronglySorted (fun a b => str_compare a b <> Gt) (timezone_list all_timezones).
Proof.
  split; [apply sorted_Permutation|].
  unfold timezone_list.
  induction all_timezones as [|x l IH]; cbn [sorted foldr]; [constructor|].
  by apply insert_sorted_ascending.
Qed.

(** X22. The default selection is [US/Pacific]: when the zone names contain
    it, the default index is the first position of the sorted options that
    holds it; when they do not, [list.index] raises and there is no
    default. *)
Theorem default_zone_is_us_pacific (all_timezones : list str) :
  (US_PACIFIC ∈ all_timezones ->
   exists i,
     default_index all_timezones = Some i
     /\ timezone_list all_timezones !! i = Some US_PACIFIC
     /\ forall j, (j < i)%nat ->
          timezone_list all_timezones !! j <> Some US_PACIFIC)
  /\ (US_PACIFIC ∉ all_timezones -> default_index all_timezones = None).
Proof.
  unfold default_index. split.
  - intros Hin.
    assert (US_PACIFIC ∈ timezone_list all_timezones) as Hin'
      by (unfold timezone_list; by rewrite sorted_Permutation).
    destruct (index_of_elem _ _ Hin') as [i Hi].
    exists i. split; [done|]. split; [by apply index_of_Some|].
    by apply index_of_first.
  - intros Hnin. apply index_of_None.
    unfold timezone_list. by rewrite sorted_Permutation.
Qed.

Lemma default_zone_is_us_pacific_witness :
  exists i,
    default_index [Reference.UTC; US_PACIFIC; Reference.ETC_GMT_PLUS_8] = Some i
    /\ timezone_list [Reference.UTC; US_PACIFIC; Reference.ETC_GMT_PLUS_8] !! i
       = Some US_PACIFIC
    /\ forall j, (j < i)%nat ->
         timezone_list [Reference.UTC; US_PACIFIC; Reference.ETC_GMT_PLUS_8] !! j
         <> Some US_PACIFIC.
Proof.
  apply (proj1 (default_zone_is_us_pacific _)).
  apply list_elem_of_In. right. left. reflexivity.
Defined.

(** * Writing posts and reading them back *)

Section FormatFacts.

Lemma strip_id s : no_space_left s -> no_space_right s -> strip s = s.
Proof.
  intros Hl Hr. unfold strip, rstrip. rewrite (lstrip_no_space _ Hl).
  rewrite lstrip_no_space, rev_involutive; [done|].
  intros c. rewrite <- last_rev_head, rev_involutive. apply Hr.
Qed.

(** A line made of a label, the separator and a plain value stores the
    value under the label, when the label has no separator of its own,
    does not start with whitespace and is not the marker. *)
Lemma labelled_line key value :
  key <> [] -> no_space_left key ->
  (forall t j, (j < length key)%nat ->
     startswith SEP (drop j (key ++ SEP ++ t)) = false) ->
  plain_value value ->
  strip (key ++ SEP ++ value) = key ++ SEP ++ value
  /\ line_pair (key ++ SEP ++ value) = Some (key, value)
  /\ 10%N ∉ value.
Proof.
  intros Hne Hleft Hsep (Hv & Hnl & Hright).
  assert (strip (key ++ SEP ++ value) = key ++ SEP ++ value) as Hstrip.
  { apply strip_id.
    - intros c Hc. apply Hleft. destruct key; [done|]. exact Hc.
    - intros c Hc. apply Hright.
      rewrite app_assoc in Hc. destruct value as [|v0 value] using rev_ind; [done|].
      rewrite app_assoc, last_snoc in Hc. by rewrite last_snoc. }
  split; [done|]. split; [|done].
  unfold line_pair, contains, split1. cbn zeta. rewrite Hstrip.
  rewrite (find_first SEP (length key)).
  - rewrite take_app_length.
    by rewrite app_assoc, <- (length_app key SEP), drop_app_length.
  - rewrite drop_app_length. apply startswith_app. by exists value.
  - intros j Hj. by apply Hsep.
Qed.

Lemma date_line d :
  plain_value d ->
  strip (of_string "Date: " ++ d) = of_string "Date: " ++ d
  /\ line_pair (of_string "Date: " ++ d) = Some (DATE, d)
  /\ is_terminator (of_string "Date: " ++ d) = false
  /\ 10%N ∉ of_string "Date: " ++ d.
Proof.
  intros Hd.
  destruct (labelled_line DATE d) as (Hs & Hp & Hnl); try done.
  - by intros c [= <-].
  - intros t j Hj. do 4 (destruct j as [|j]; [reflexivity|]). cbn in Hj. lia.
  - change (of_string "Date: " ++ d) with (DATE ++ SEP ++ d).
    split; [done|]. split; [done|]. split.
    + unfold is_terminator. by rewrite Hs.
    + intros H. repeat (apply elem_of_cons in H as [H|H]; [discriminate H|]).
      done.
Qed.

Lemma likes_line n :
  plain_value n ->
  strip (of_string "Like(s): " ++ n) = of_string "Like(s): " ++ n
  /\ line_pair (of_string "Like(s): " ++ n) = Some (LIKES, n)
  /\ is_terminator (of_string "Like(s): " ++ n) = false
  /\ 10%N ∉ of_string "Like(s): " ++ n.
Proof.
  intros Hn.
  destruct (labelled_line LIKES n) as (Hs & Hp & Hnl); try done.
  - by intros c [= <-].
  - intros t j Hj. do 7 (destruct j as [|j]; [reflexivity|]). cbn in Hj. lia.
  - change (of_string "Like(s): " ++ n) with (LIKES ++ SEP ++ n).
    split; [done|]. split; [done|]. split.
    + unfold is_terminator. by rewrite Hs.
    + intros H. repeat (apply elem_of_cons in H as [H|H]; [discriminate H|]).
      done.
Qed.

Lemma split_format_post post :
  plain_value post.1 -> plain_value post.2 ->
  split_nl (format_post post)
  = [of_string "Date: " ++ post.1; of_string "Like(s): " ++ post.2; MARKER].
Proof.
  intros Hd Hn. unfold format_post.
  destruct (date_line _ Hd) as (_ & _ & _ & Hnl1).
  destruct (likes_line _ Hn) as (_ & _ & _ & Hnl2).
  rewrite split_nl_app, split_nl_app.
  rewrite (split_nl_no_newline _ Hnl1), (split_nl_no_newline _ Hnl2).
  reflexivity.
Qed.

Lemma run_format_post post records :
  plain_value post.1 -> plain_value post.2 ->
  run_loop (records, ∅) (split_nl (format_post post))
  = Some (records ++ [post_record post], ∅).
Proof.
  intros Hd Hn. rewrite split_format_post by done.
  destruct (date_line _ Hd) as (_ & Hp1 & Ht1 & _).
  destruct (likes_line _ Hn) as (_ & Hp2 & Ht2 & _).
  cbn [run_loop]. rewrite !loop_body_eq, Ht1. cbn [mbind option_bind].
  rewrite loop_body_eq, Ht2. cbn [mbind option_bind].
  rewrite loop_body_eq. unfold store. rewrite Hp1, Hp2. reflexivity.
Qed.

Lemma run_format_posts posts : forall records,
  Forall (fun post => plain_value post.1 /\ plain_value post.2) posts ->
  posts <> [] ->
  run_loop (records, ∅) (split_nl (format_posts posts))
  = Some (records ++ (post_record <$> posts), ∅).
Proof.
  unfold format_posts.
  induction posts as [|post posts IH]; intros records Hok Hne; [done|].
  inversion Hok as [|? ? [Hd Hn] Hoks]; subst.
  destruct posts as [|post' posts].
  - cbn [fmap list_fmap join_nl]. by apply run_format_post.
  - rewrite !fmap_cons.
    change (join_nl (format_post post :: format_post post' :: (format_post <$> posts)))
      with (format_post post
            ++ 10%N :: join_nl (format_post <$> post' :: posts)).
    rewrite split_nl_app, run_loop_app, run_format_post by done.
    cbn [mbind option_bind]. rewrite IH by done.
    by rewrite <- app_assoc.
Qed.

Lemma extract_format_posts posts :
  Forall (fun post => plain_value post.1 /\ plain_value post.2) posts ->
  extract_records (format_posts posts) = Some (post_record <$> posts).
Proof.
  intros Hok. destruct posts as [|post posts]; [reflexivity|].
  unfold extract_records. by rewrite run_format_posts.
Qed.

Lemma post_record_columns post posts :
  has_column (post_record <$> post :: posts) DATE = true
  /\ has_column (post_record <$> post :: posts) LIKES = true.
Proof.
  split; apply (proj2 (has_column_true _ _)); exists (post_record post);
    (split; [rewrite fmap_cons; by left|]); unfold post_record.
  - rewrite lookup_insert_ne by done. rewrite lookup_insert_eq. by eexists.
  - rewrite lookup_insert_eq. by eexists.
Qed.

End FormatFacts.

(** X23. Posts written in the export's format are read back field for
    field: for posts whose date and like-count strings are plain values,
    the extraction returns one record per post, in order, holding exactly
    that [Date] and that [Like(s)]. *)
Theorem extract_formatted_posts (posts : list (str * str)) :
  Forall (fun post => plain_value post.1 /\ plain_value post.2) posts ->
  extract_records (format_posts posts) = Some (post_record <$> posts).
Proof.
  apply extract_format_posts.
Qed.

Lemma extract_formatted_posts_witness :
  extract_records
    (format_posts [(of_string "2024-01-15 10:00:00", of_string "10");
                   (of_string "2024-01-16 11:30:00", of_string "20")])
  = Some (post_record <$>
            [(of_string "2024-01-15 10:00:00", of_string "10");
             (of_string "2024-01-16 11:30:00", of_string "20")]).
Proof.
  apply extract_formatted_posts.
  repeat constructor; try discriminate;
    try (vm_compute; intros H;
         repeat (apply elem_of_cons in H as [H|H]; [discriminate H|]);
         by apply elem_of_nil in H);
    try (intros c; vm_compute; intros [= <-]; reflexivity).
Defined.

(** X24. The success path, end to end: for at least one post written in
    the export's format, when the date column converts, the zone is known,
    every like count casts and the derived columns can be computed for the
    converted dates, the call returns, with no error message, the table
    that has one row per post, in order, built from the converted dates and
    the cast like counts. *)
Theorem process_formatted_posts `{L : Library}
    (posts : list (str * str)) (timezone : str)
    (dates : list (option Z)) (offset : Z -> Z) (likes : list Z) :
  posts <> [] ->
  Forall (fun post => plain_value post.1 /\ plain_value post.2) posts ->
  to_datetime ((fun post => Some post.1) <$> posts) = Some dates ->
  tz_lookup timezone = Some offset ->
  Forall2 (fun post n => py_int post.2 = Some n) posts likes ->
  dt_columns_ok offset dates = true ->
  process_file_contents (format_posts posts) timezone
  = Returns (Some (zip_with (make_row offset) dates likes)) []
  /\ length (zip_with (make_row offset) dates likes) = length posts.
Proof.
  intros Hne Hok Hdates Hzone Hlikes Hdt.
  assert (column (post_record <$> posts) DATE = (fun post => Some post.1) <$> posts)
    as HcD.
  { unfold column. rewrite <- list_fmap_compose. apply list_fmap_ext.
    intros i post _. unfold post_record. cbn.
    rewrite lookup_insert_ne by done. by rewrite lookup_insert_eq. }
  assert (column (post_record <$> posts) LIKES = (fun post => Some post.2) <$> posts)
    as HcL.
  { unfold column. rewrite <- list_fmap_compose. apply list_fmap_ext.
    intros i post _. unfold post_record. cbn. by rewrite lookup_insert_eq. }
  assert (build_table (post_record <$> posts) timezone
          = Ok (zip_with (make_row offset) dates likes)) as Hdf.
  { apply build_table_ok. exists dates, offset, likes.
    destruct posts as [|post posts]; [done|].
    destruct (post_record_columns post posts) as [HD HL].
    split; [done|]. split; [done|].
    split; [by rewrite HcD|]. split; [done|]. split; [|by split].
    rewrite HcL. apply astype_int_ok. by apply Forall2_fmap_l. }
  split.
  - unfold process_file_contents.
    by rewrite extract_format_posts, Hdf.
  - apply build_table_length in Hdf. by rewrite length_fmap in Hdf.
Qed.

Lemma process_formatted_posts_witness :
  process_file_contents (L := Reference.library)
    (format_posts [(of_string "2024-01-15T10:00:00Z", of_string "10")])
    Reference.UTC
  = Returns (Some (zip_with (make_row (fun _ => 0))
                     [Some 1705312800000000000] [10])) []
  /\ length (zip_with (make_row (fun _ => 0)) [Some 1705312800000000000] [10])
     = length [(of_string "2024-01-15T10:00:00Z", of_string "10")].
Proof.
  apply (process_formatted_posts (L := Reference.library)).
  - done.
  - repeat constructor; try discriminate;
      try (vm_compute; intros H;
           repeat (apply elem_of_cons in H as [H|H]; [discriminate H|]);
           by apply elem_of_nil in H);
      try (intros c; vm_compute; intros [= <-]; reflexivity).
  - vm_compute. reflexivity.
  - vm_compute. reflexivity.
  - repeat constructor.
  - vm_compute. reflexivity.
Defined.

(** X25. A returned table has exactly one row per terminator line of the
    text, and at least one row: the call never returns an empty table. *)
Theorem table_row_per_terminator `{L : Library}
    (file_contents timezone : str) (df : DataFrame) :
  process_file_contents file_contents timezone = Returns (Some df) [] ->
  length df = length (List.filter is_terminator (split_nl file_contents))
  /\ (0 < length df)%nat.
Proof.
  unfold process_file_contents, extract_records.
  destruct (run_loop_total (split_nl file_contents) ([], ∅))
    as [[records current] Hrun].
  rewrite Hrun. cbn [fmap option_fmap option_map fst].
  destruct (build_table records timezone) as [df'|e] eqn:B; [|done].
  intros [= <-].
  pose proof (build_table_length _ _ _ B) as Hlen.
  apply run_loop_length in Hrun. cbn [length] in Hrun.
  apply build_table_ok in B as (_ & _ & _ & HD & _).
  apply has_column_true in HD as (r & Hr & _).
  split; [lia|]. rewrite Hlen. destruct records; [by apply elem_of_nil in Hr|].
  cbn. lia.
Qed.

Lemma table_row_per_terminator_witness :
  let df : DataFrame :=
    [ make_row (fun _ => 0) (Some 1705312800000000000) 10;
      make_row (fun _ => 0) (Some 1705314600000000000) 20 ] in
  length df = length (List.filter is_terminator (split_nl scenario))
  /\ (0 < length df)%nat.
Proof.
  intros df.
  apply (table_row_per_terminator (L := Reference.library) scenario Reference.UTC).
  vm_compute. reflexivity.
Defined.
